(** * QueueCTL: a shallow embedding of the job model, the worker and the
    control operations (src/queuectl/models.py, worker.py, cli.py).

    Conventions of the embedding:
    - Python [str] values are Rocq [string]s (ASCII text); Python [int]s are [Z].
    - A [datetime] is the number of microseconds since 0001-01-01T00:00:00,
      the range Python's [datetime] supports; its ISO rendering
      ([isoformat() + "Z"]) is a parameter [isoformat] of the definitions
      that need it.
    - A raised exception is represented by its message [str(e)]. *)

From Stdlib Require Import ZArith Lia Ascii String.
From stdpp Require Import base gmap strings list pretty.

Local Open Scope Z_scope.

(* ------------------------------------------------------------------ *)
(** ** models.py *)

Module JobState.
Definition PENDING : string := "pending".
Definition PROCESSING : string := "processing".
Definition COMPLETED : string := "completed".
Definition FAILED : string := "failed".
Definition DEAD : string := "dead".
End JobState.

(** [@dataclass class Job]. After [__post_init__] the two timestamps are
    always strings, so they are not optional here. *)
Module Job.
Record t := mk {
    id : string;
    command : string;
    state : string;
    attempts : Z;
    max_retries : Z;
    created_at : string;
    updated_at : string;
    next_retry_at : option string;
    error_message : option string
  }.

Definition set_state (j : t) (s : string) : t :=
    mk j.(id) j.(command) s j.(attempts) j.(max_retries) j.(created_at)
       j.(updated_at) j.(next_retry_at) j.(error_message).
Definition set_attempts (j : t) (a : Z) : t :=
    mk j.(id) j.(command) j.(state) a j.(max_retries) j.(created_at)
       j.(updated_at) j.(next_retry_at) j.(error_message).
Definition set_updated_at (j : t) (u : string) : t :=
    mk j.(id) j.(command) j.(state) j.(attempts) j.(max_retries) j.(created_at)
       u j.(next_retry_at) j.(error_message).
Definition set_next_retry_at (j : t) (n : option string) : t :=
    mk j.(id) j.(command) j.(state) j.(attempts) j.(max_retries) j.(created_at)
       j.(updated_at) n j.(error_message).
Definition set_error_message (j : t) (e : option string) : t :=
    mk j.(id) j.(command) j.(state) j.(attempts) j.(max_retries) j.(created_at)
       j.(updated_at) j.(next_retry_at) e.
End Job.

(** [@dataclass class Config]. The float [worker_poll_interval] only sets
    the idle sleep of the worker loop and is not represented. *)
Module Config.
Record t := mk {
    max_retries : Z;
    backoff_base : Z;
    job_timeout : Z
  }.
Definition default : t := mk 3 2 300.
End Config.

(* ------------------------------------------------------------------ *)
(** ** Python library behaviour used by the worker *)

(** [str.strip()] with no argument: the ASCII characters Python counts as
    whitespace are 9..13 and 28..32. *)
Definition is_py_space (c : ascii) : bool :=
  let n := nat_of_ascii c in
  ((9 <=? n)%nat && (n <=? 13)%nat) || ((28 <=? n)%nat && (n <=? 32)%nat).

Fixpoint lstrip (s : string) : string :=
  match s with
  | EmptyString => EmptyString
  | String c r => if is_py_space c then lstrip r else s
  end.

Fixpoint rev_str (s : string) (acc : string) : string :=
  match s with
  | EmptyString => acc
  | String c r => rev_str r (String c acc)
  end.

Definition rstrip (s : string) : string :=
  rev_str (lstrip (rev_str s EmptyString)) EmptyString.

Definition py_strip (s : string) : string := rstrip (lstrip s).

(** Truthiness of a [str]: non-empty. *)
Definition py_truthy_str (s : string) : bool :=
  match s with EmptyString => false | _ => true end.

(** Exceptions raised while computing a value. *)
Inductive py_result (A : Type) :=
| Ret (a : A)
| Raise (msg : string).
Arguments Ret {A} a.
Arguments Raise {A} msg.

Definition US_PER_SECOND : Z := 1000000.
Definition SECONDS_PER_DAY : Z := 86400.
(** [datetime.max - datetime.min] in microseconds. *)
Definition DATETIME_MAX_US : Z := 315537897599999999.

(** [timedelta(seconds=x)] for an [int] x, in microseconds: the day count
    must fit a C int and have magnitude at most 999999999. *)
Definition timedelta_seconds (x : Z) : py_result Z :=
  let d := x / SECONDS_PER_DAY in
  if (d >? 2147483647) || (d <? -2147483648) then
    Raise "Python int too large to convert to C int"
  else if Z.abs d >? 999999999 then
    Raise ("days=" +:+ pretty d +:+ "; must have magnitude <= 999999999")
  else Ret (x * US_PER_SECOND).

(** [datetime + timedelta]: the result must stay within years 1..9999. *)
Definition datetime_add (t td : Z) : py_result Z :=
  let r := t + td in
  if (r <? 0) || (DATETIME_MAX_US <? r) then Raise "date value out of range"
  else Ret r.

(* ------------------------------------------------------------------ *)
(** ** worker.py *)

(** [self.config.backoff_base ** job.attempts]. For a non-negative
    exponent Python's [int ** int] is exact integer power. For a negative
    exponent Python gives a [float] (and raises [ZeroDivisionError] for
    base 0), which is not modelled: [Z.pow] gives 0 there, and the
    properties below that go through this branch assume a non-negative
    exponent. *)
Definition backoff_delay (attempts base : Z) : Z := base ^ attempts.

(** [str(n)], [repr(n)], [format(n)] and [int(text)] refuse numbers of
    more than [sys.get_int_max_str_digits()] decimal digits with a
    [ValueError] (Python 3.11 and later); the default limit is 4300. The
    sign does not count. *)
Definition PY_INT_MAX_STR_DIGITS : nat := 4300.

Definition int_str_ok (z : Z) : bool :=
  (String.length (pretty (Z.abs z)) <=? PY_INT_MAX_STR_DIGITS)%nat.

Definition INT_STR_LIMIT_MSG : string :=
  "Exceeds the limit (4300 digits) for integer string conversion; use sys.set_int_max_str_digits() to increase the limit".

(** The result of [subprocess.run(command, shell=True, capture_output=True,
    text=True, timeout=...)]. *)
Inductive run_outcome :=
| Completed (returncode : Z) (stdout stderr : string)
| TimeoutExpired
| RunnerException (msg : string).

Section Worker.
  Variable isoformat : Z -> string.

  (** [Worker._handle_job_failure]: the job as mutated, and the exception
      it raises if the backoff date cannot be computed (the job has then
      already been given its error message and [state = failed]), or if a
      [print] formats an [int] beyond the digit limit (after the job has
      been updated). *)
Definition handle_job_failure (cfg : Config.t) (now : Z) (job : Job.t)
      (error_message : string) : Job.t * option string :=
    let job := Job.set_error_message job (Some error_message) in
    if job.(Job.attempts) >=? job.(Job.max_retries) then
      let job := Job.set_next_retry_at (Job.set_state job JobState.DEAD) None in
      (* f"... after {job.attempts} attempts, moving to DLQ" *)
      if int_str_ok job.(Job.attempts) then (job, None) else (job, Some INT_STR_LIMIT_MSG)
    else
      let job := Job.set_state job JobState.FAILED in
      let backoff_seconds := backoff_delay job.(Job.attempts) cfg.(Config.backoff_base) in
      match timedelta_seconds backoff_seconds with
      | Raise e => (job, Some e)
      | Ret td =>
          match datetime_add now td with
          | Raise e => (job, Some e)
          | Ret next_retry =>
              let job := Job.set_next_retry_at job (Some (isoformat next_retry)) in
              (* f"(attempt {job.attempts}/{job.max_retries}), retrying in {backoff_seconds}s" *)
              if int_str_ok job.(Job.attempts) && int_str_ok job.(Job.max_retries)
                 && int_str_ok backoff_seconds
              then (job, None) else (job, Some INT_STR_LIMIT_MSG)
          end
      end.

  (** [Worker._execute_job] up to (excluding) its [finally] block: the job
      object as it is when [save_job] runs, and the exception propagating
      out of the method, if any. An exception raised by
      [_handle_job_failure] inside the [try] body is caught by
      [except Exception] and handled again with its message; one raised
      inside an [except] clause propagates. *)
Definition execute_job (cfg : Config.t) (now : Z) (job : Job.t)
      (out : run_outcome) : Job.t * option string :=
    let job := Job.set_attempts job (job.(Job.attempts) + 1) in
    match out with
    | Completed returncode _ stderr =>
        if returncode =? 0 then
          (Job.set_error_message (Job.set_state job JobState.COMPLETED) None, None)
        else
          let error_msg :=
            if py_truthy_str stderr then py_strip stderr
            else "Exit code: " +:+ pretty returncode in
          match handle_job_failure cfg now job error_msg with
          | (job', None) => (job', None)
          | (job', Some e) => handle_job_failure cfg now job' e
          end
    | TimeoutExpired =>
        handle_job_failure cfg now job
          ("Job timed out after " +:+ pretty cfg.(Config.job_timeout) +:+ " seconds")
    | RunnerException e => handle_job_failure cfg now job e
    end.
End Worker.

(* ------------------------------------------------------------------ *)
(** ** The job store (storage.py) *)

(** Modelled from the spec: [storage.py] (class [Storage]) is not part of
    the sources. Spec section 4.1 describes a durable map from job id to
    job record, each record carrying its lease ([lease_owner],
    [lease_expires_at]), plus a singleton config; every operation is one
    atomic commit. *)
Module Store.
Record row := mk_row {
    job : Job.t;
    lease_owner : option string;
    lease_expires_at : option Z
  }.

Record t := mk {
    jobs : gmap string row;
    config : Config.t
  }.

Definition empty (cfg : Config.t) : t := mk ∅ cfg.

Definition set_jobs (s : t) (m : gmap string row) : t := mk m s.(config).

  Section Ops.
    Variable isoformat : Z -> string.

    (** Modelled from the spec: [get(id)], read-only. *)
Definition get_job (s : t) (job_id : string) : option Job.t :=
      job <$> s.(jobs) !! job_id.

    (** Modelled from the spec: [put(job)], an upsert keyed by [job.id]
        that bumps [updated_at] ("updated on every persistence write") and
        leaves the lease columns as they are (only [release] clears a
        lease). [save_job] reports success. *)
Definition save_job (now : Z) (s : t) (j : Job.t) : t :=
      let j := Job.set_updated_at j (isoformat now) in
      let r := match s.(jobs) !! j.(Job.id) with
               | Some old => mk_row j old.(lease_owner) old.(lease_expires_at)
               | None => mk_row j None None
               end in
      set_jobs s (<[j.(Job.id) := r]> s.(jobs)).

    (** Modelled from the spec: [release(id)] clears the lease and keeps
        the state; idempotent. *)
Definition release_job (s : t) (job_id : string) : t :=
      match s.(jobs) !! job_id with
      | Some r => set_jobs s (<[job_id := mk_row r.(job) None None]> s.(jobs))
      | None => s
      end.

    (** Modelled from the spec: [delete(id)]. *)
Definition delete_job (s : t) (job_id : string) : t :=
      set_jobs s (delete job_id s.(jobs)).

    (** Modelled from the spec: [put_config(c)]. *)
Definition save_config (s : t) (c : Config.t) : t := mk s.(jobs) c.

    (** Modelled from the spec: a lease is live when an owner is set and
        its expiry lies in the future. *)
Definition lease_live (now : Z) (r : row) : bool :=
      match r.(lease_owner), r.(lease_expires_at) with
      | Some _, Some e => now <? e
      | _, _ => false
      end.

    (** Modelled from the spec, selection steps 1 and 2 of [acquire_next]:
        pending, or failed with [next_retry_at <= now] (timestamps compared
        in their ISO rendering), and not under a live lease. *)
Definition eligible (now : Z) (r : row) : bool :=
      let j := r.(job) in
      let due := match j.(Job.next_retry_at) with
                 | Some n => String.leb n (isoformat now)
                 | None => false
                 end in
      (String.eqb j.(Job.state) JobState.PENDING
       || (String.eqb j.(Job.state) JobState.FAILED && due))
      && negb (lease_live now r).

    (** Modelled from the spec, selection step 3: smallest [created_at],
        ties broken by id. *)
Definition before (a b : string * row) : bool :=
      match String.compare a.2.(job).(Job.created_at) b.2.(job).(Job.created_at) with
      | Lt => true
      | Gt => false
      | Eq => String.ltb a.1 b.1
      end.

Fixpoint select (now : Z) (l : list (string * row)) : option (string * row) :=
      match l with
      | [] => None
      | x :: rest =>
          match select now rest with
          | None => if eligible now x.2 then Some x else None
          | Some y => if eligible now x.2 && before x y then Some x else Some y
          end
      end.

    (** Modelled from the spec, [acquire_next(worker_id, now)] with the
        lease grace period [grace] (seconds): step 4 sets
        [state <- processing], [lease_owner <- worker_id],
        [lease_expires_at <- now + job_timeout + grace] and bumps
        [updated_at], in the same commit as the selection. *)
Definition acquire_next (grace : Z) (s : t) (worker_id : string) (now : Z)
        : option (Job.t * t) :=
      match select now (map_to_list s.(jobs)) with
      | None => None
      | Some (k, r) =>
          let j := Job.set_updated_at (Job.set_state r.(job) JobState.PROCESSING)
                     (isoformat now) in
          let expires := now + (s.(config).(Config.job_timeout) + grace) * US_PER_SECOND in
          Some (j, set_jobs s (<[k := mk_row j (Some worker_id) (Some expires)]> s.(jobs)))
      end.
  End Ops.
End Store.

(* ------------------------------------------------------------------ *)
(** ** Dictionaries: [Job.to_dict] and [Job.from_dict] (models.py) *)

(** A Python value as it can occur in a job dictionary (after
    [json.loads] or [asdict]): a [str], an [int], [None], or anything else
    (float, bool, list, object). *)
Inductive pyval :=
| PStr (s : string)
| PInt (z : Z)
| PNone
| POther.

(** A [dict] with [str] keys, in insertion order, keys pairwise distinct. *)
Definition pydict := list (string * pyval).

Fixpoint dict_get (d : pydict) (k : string) : option pyval :=
  match d with
  | [] => None
  | (k', v) :: rest => if String.eqb k k' then Some v else dict_get rest k
  end.

Definition has_key (d : pydict) (k : string) : bool :=
  match dict_get d k with Some _ => true | None => false end.

(** [d[k] = v]: overwrite in place, or append a new key at the end. *)
Fixpoint dict_set (d : pydict) (k : string) (v : pyval) : pydict :=
  match d with
  | [] => [(k, v)]
  | (k', v') :: rest =>
      if String.eqb k k' then (k', v) :: rest else (k', v') :: dict_set rest k v
  end.

Definition job_fields : list string :=
  ["id"; "command"; "state"; "attempts"; "max_retries"; "created_at";
   "updated_at"; "next_retry_at"; "error_message"].

Definition pyval_of_opt (o : option string) : pyval :=
  match o with Some s => PStr s | None => PNone end.

(** [Job.to_dict] = [dataclasses.asdict]: the fields in declaration order. *)
Definition to_dict (j : Job.t) : pydict :=
  [("id", PStr j.(Job.id)); ("command", PStr j.(Job.command));
   ("state", PStr j.(Job.state)); ("attempts", PInt j.(Job.attempts));
   ("max_retries", PInt j.(Job.max_retries));
   ("created_at", PStr j.(Job.created_at)); ("updated_at", PStr j.(Job.updated_at));
   ("next_retry_at", pyval_of_opt j.(Job.next_retry_at));
   ("error_message", pyval_of_opt j.(Job.error_message))].

Definition in_fields (k : string) : bool :=
  existsb (fun f => String.eqb f k) job_fields.

(** Arguments of the call [Job(...)]: the [str] fields, the [int] fields and the
    [Optional[str]] fields. A value of another type is accepted by the
    dataclass at run time but has no counterpart in [Job.t]; the embedding
    rejects it, as [json] inputs of the documented schema never carry one. *)
Definition arg_str (v : pyval) : py_result string :=
  match v with PStr s => Ret s | _ => Raise "value outside the Job schema" end.
Definition arg_int (v : pyval) : py_result Z :=
  match v with PInt z => Ret z | _ => Raise "value outside the Job schema" end.
Definition arg_opt_str (v : pyval) : py_result (option string) :=
  match v with PStr s => Ret (Some s) | PNone => Ret None
          | _ => Raise "value outside the Job schema" end.

Definition py_bind {A B} (r : py_result A) (f : A -> py_result B) : py_result B :=
  match r with Ret a => f a | Raise e => Raise e end.

Notation "x <- r ;; k" := (py_bind r (fun x => k))
  (at level 100, r at next level, right associativity).

(** An optional argument with its default. *)
Definition arg_default {A} (d : pydict) (k : string) (conv : pyval -> py_result A)
    (default : A) : py_result A :=
  match dict_get d k with Some v => conv v | None => Ret default end.

Definition missing_args_message (missing : list string) : string :=
  match missing with
  | [a] => "Job.__init__() missing 1 required positional argument: '" +:+ a +:+ "'"
  | _ => "Job.__init__() missing 2 required positional arguments: 'id' and 'command'"
  end.

(** [Job.from_dict(data)] = [cls(...)] on the keywords of [data], followed by [__post_init__],
    where [now_iso] is [datetime.utcnow().isoformat() + "Z"]. *)
Definition from_dict (now_iso : string) (d : pydict) : py_result Job.t :=
  match List.find (fun kv => negb (in_fields kv.1)) d with
  | Some (k, _) => Raise ("Job.__init__() got an unexpected keyword argument '" +:+ k +:+ "'")
  | None =>
      let missing := List.filter (fun f => negb (has_key d f)) ["id"; "command"] in
      match missing with
      | _ :: _ => Raise (missing_args_message missing)
      | [] =>
          id <- arg_default d "id" arg_str "" ;;
          command <- arg_default d "command" arg_str "" ;;
          state <- arg_default d "state" arg_str JobState.PENDING ;;
          attempts <- arg_default d "attempts" arg_int 0 ;;
          max_retries <- arg_default d "max_retries" arg_int 3 ;;
          created_at <- arg_default d "created_at" arg_opt_str None ;;
          updated_at <- arg_default d "updated_at" arg_opt_str None ;;
          next_retry_at <- arg_default d "next_retry_at" arg_opt_str None ;;
          error_message <- arg_default d "error_message" arg_opt_str None ;;
          (* __post_init__ *)
          let created_at := match created_at with Some c => c | None => now_iso end in
          let updated_at := match updated_at with Some u => u | None => now_iso end in
          Ret (Job.mk id command state attempts max_retries created_at updated_at
                 next_retry_at error_message)
      end
  end.

(* ------------------------------------------------------------------ *)
(** ** models.py: [Job.to_json] and [Job.from_json] *)

(** [json.dumps(obj, indent=2)] with the default [ensure_ascii=True], on
    a [dict] whose values are [str], [int] or [None], and [json.loads] on
    texts whose top level is an object with values of these kinds. A
    character is one code point 0..255. Decoding errors are not
    distinguished by message. *)

Definition json_hex_digit (n : nat) : ascii :=
  ascii_of_nat (if (n <? 10)%nat then 48 + n else 87 + n).

(** The replacement of one character in [py_encode_basestring_ascii]:
    [ESCAPE_DCT] first, then [\uXXXX] (lower-case hex) for everything
    outside [' '..'~']. *)
Definition json_escape_char (c : ascii) : string :=
  let n := nat_of_ascii c in
  if Ascii.eqb c "034"%char then String "\"%char (String "034"%char EmptyString)
  else if Ascii.eqb c "\"%char then "\\"
  else if (n =? 8)%nat then "\b"
  else if (n =? 12)%nat then "\f"
  else if (n =? 10)%nat then "\n"
  else if (n =? 13)%nat then "\r"
  else if (n =? 9)%nat then "\t"
  else if (n <? 32)%nat || (126 <? n)%nat then
    "\u00" +:+ String (json_hex_digit (n / 16)) (String (json_hex_digit (n mod 16)) EmptyString)
  else String c EmptyString.

Fixpoint json_escape (s : string) : string :=
  match s with
  | EmptyString => EmptyString
  | String c r => json_escape_char c +:+ json_escape r
  end.

Definition encode_basestring_ascii (s : string) : string :=
  String "034"%char (json_escape s +:+ String "034"%char EmptyString).

(** A value: [str], [None], or [int.__repr__], which refuses more than 4300 digits. *)
Definition json_encode_value (v : pyval) : py_result string :=
  match v with
  | PStr s => Ret (encode_basestring_ascii s)
  | PInt z => if int_str_ok z then Ret (pretty z) else Raise ("ValueError: " +:+ INT_STR_LIMIT_MSG)
  | PNone => Ret "null"
  | POther => Raise "TypeError: Object is not JSON serializable"
  end.

Definition newline_indent : string := String "010"%char "  ".
Definition item_separator : string := "," +:+ newline_indent.
Definition key_separator : string := ": ".

(** The items of [_iterencode_dict] at indent level 1. *)
Fixpoint iterencode_items (first : bool) (d : pydict) : py_result string :=
  match d with
  | [] => Ret EmptyString
  | (k, v) :: rest =>
      vs <- json_encode_value v ;;
      r <- iterencode_items false rest ;;
      Ret ((if first then EmptyString else item_separator)
           +:+ encode_basestring_ascii k +:+ key_separator +:+ vs +:+ r)
  end.

Definition json_dumps_indent2 (d : pydict) : py_result string :=
  match d with
  | [] => Ret "{}"
  | _ =>
      items <- iterencode_items true d ;;
      Ret ("{" +:+ newline_indent +:+ items +:+ String "010"%char "}")
  end.

(** [Job.to_json]. *)
Definition to_json (j : Job.t) : py_result string := json_dumps_indent2 (to_dict j).

Definition json_ws (c : ascii) : bool :=
  Ascii.eqb c " " || Ascii.eqb c "009" || Ascii.eqb c "010" || Ascii.eqb c "013".

Fixpoint skip_ws (s : string) : string :=
  match s with
  | EmptyString => EmptyString
  | String c r => if json_ws c then skip_ws r else s
  end.

Definition json_hex_val (c : ascii) : option nat :=
  let n := nat_of_ascii c in
  if (48 <=? n)%nat && (n <=? 57)%nat then Some (n - 48)%nat
  else if (97 <=? n)%nat && (n <=? 102)%nat then Some (n - 87)%nat
  else if (65 <=? n)%nat && (n <=? 70)%nat then Some (n - 55)%nat
  else None.

(** The one-character escapes of [BACKSLASH]. *)
Definition json_unescape (e : ascii) : option ascii :=
  if Ascii.eqb e "034"%char then Some "034"%char
  else if Ascii.eqb e "\"%char then Some "\"%char
  else if Ascii.eqb e "/"%char then Some "/"%char
  else if Ascii.eqb e "b"%char then Some "008"%char
  else if Ascii.eqb e "f"%char then Some "012"%char
  else if Ascii.eqb e "n"%char then Some "010"%char
  else if Ascii.eqb e "r"%char then Some "013"%char
  else if Ascii.eqb e "t"%char then Some "009"%char
  else None.

Definition scan_cons (c : ascii) (o : option (string * string)) : option (string * string) :=
  match o with Some (d, t) => Some (String c d, t) | None => None end.

(** [scanstring] (strict) from just after the opening quote: the decoded
    string and the text after the closing quote. *)
Fixpoint scanstring (s : string) : option (string * string) :=
  match s with
  | EmptyString => None
  | String c r =>
      if Ascii.eqb c "034"%char then Some (EmptyString, r)
      else if Ascii.eqb c "\"%char then
        match r with
        | EmptyString => None
        | String e r' =>
            if Ascii.eqb e "u"%char then
              match r' with
              | String h1 (String h2 (String h3 (String h4 r''))) =>
                  match json_hex_val h1, json_hex_val h2, json_hex_val h3, json_hex_val h4 with
                  | Some a, Some b, Some c', Some d =>
                      let v := (((a * 16 + b) * 16 + c') * 16 + d)%nat in
                      if (v <=? 255)%nat then scan_cons (ascii_of_nat v) (scanstring r'')
                      else None
                  | _, _, _, _ => None
                  end
              | _ => None
              end
            else
              match json_unescape e with
              | Some c' => scan_cons c' (scanstring r')
              | None => None
              end
        end
      else if (nat_of_ascii c <? 32)%nat then None
      else scan_cons c (scanstring r)
  end.

Definition is_digit (c : ascii) : bool :=
  let n := nat_of_ascii c in (48 <=? n)%nat && (n <=? 57)%nat.

Definition digit_val (c : ascii) : Z := Z.of_nat (nat_of_ascii c) - 48.

Fixpoint scan_digits (acc : Z) (s : string) : Z * string :=
  match s with
  | EmptyString => (acc, EmptyString)
  | String c r => if is_digit c then scan_digits (10 * acc + digit_val c) r else (acc, s)
  end.

(** Whether [NUMBER_RE] continues with a fraction or an exponent, which
    makes the number a [float]. *)
Definition float_tail (s : string) : bool :=
  match s with
  | String c r =>
      if Ascii.eqb c "."%char then
        match r with String d _ => is_digit d | EmptyString => false end
      else if Ascii.eqb c "e"%char || Ascii.eqb c "E"%char then
        match r with
        | String sg r2 =>
            if Ascii.eqb sg "+"%char || Ascii.eqb sg "-"%char then
              match r2 with String d _ => is_digit d | EmptyString => false end
            else is_digit sg
        | EmptyString => false
        end
      else false
  | EmptyString => false
  end.

(** The integer part of [NUMBER_RE]: an optional minus sign, then [0] or a
    non-zero digit followed by digits; not followed by a fraction or an
    exponent. [int(integer)] then refuses more than 4300 digits with a
    [ValueError], a failure of [json.loads] like a decoding error. *)
Definition scan_int (s : string) : option (Z * string) :=
  let '(neg, s1) :=
    match s with
    | String c r => if Ascii.eqb c "-"%char then (true, r) else (false, s)
    | EmptyString => (false, s)
    end in
  let r :=
    match s1 with
    | String c r =>
        if Ascii.eqb c "0"%char then Some (0, r)
        else if is_digit c then Some (scan_digits (digit_val c) r)
        else None
    | EmptyString => None
    end in
  match r with
  | Some (n, rest) =>
      if float_tail rest then None
      else if (PY_INT_MAX_STR_DIGITS <? String.length s1 - String.length rest)%nat then None
      else Some (if neg then - n else n, rest)
  | None => None
  end.

(** [scan_once] on the values of the Job schema. *)
Definition scan_value (s : string) : option (pyval * string) :=
  match s with
  | EmptyString => None
  | String c r =>
      if Ascii.eqb c "034"%char then
        match scanstring r with Some (v, t) => Some (PStr v, t) | None => None end
      else if Ascii.eqb c "n"%char then
        match r with
        | String "u"%char (String "l"%char (String "l"%char t)) => Some (PNone, t)
        | _ => None
        end
      else match scan_int s with Some (z, t) => Some (PInt z, t) | None => None end
  end.

(** The member loop of [JSONObject], from just after the opening quote of
    a key; [fuel] bounds the number of members. *)
Fixpoint scan_members (fuel : nat) (pairs : list (string * pyval)) (s : string)
    : option (list (string * pyval) * string) :=
  match fuel with
  | O => None
  | S fuel =>
      match scanstring s with
      | None => None
      | Some (key, s1) =>
          match skip_ws s1 with
          | String ":"%char s2 =>
              match scan_value (skip_ws s2) with
              | None => None
              | Some (value, s3) =>
                  let pairs := pairs ++ [(key, value)] in
                  match skip_ws s3 with
                  | String "}"%char s4 => Some (pairs, s4)
                  | String ","%char s4 =>
                      match skip_ws s4 with
                      | String c s5 =>
                          if Ascii.eqb c "034"%char then scan_members fuel pairs s5 else None
                      | EmptyString => None
                      end
                  | _ => None
                  end
              end
          | _ => None
          end
      end
  end.

(** [dict(pairs)]: a repeated key keeps its first position and its last value. *)
Definition dict_of_pairs (pairs : list (string * pyval)) : pydict :=
  fold_left (fun d kv => dict_set d kv.1 kv.2) pairs [].

(** [JSONObject] from just after the opening brace. *)
Definition scan_object (fuel : nat) (s : string) : option (pydict * string) :=
  match skip_ws s with
  | EmptyString => None
  | String c r =>
      if Ascii.eqb c "}"%char then Some ([], r)
      else if Ascii.eqb c "034"%char then
        match scan_members fuel [] r with
        | Some (pairs, t) => Some (dict_of_pairs pairs, t)
        | None => None
        end
      else None
  end.

Definition json_loads (s : string) : py_result pydict :=
  match skip_ws s with
  | String "{"%char r =>
      match scan_object (String.length s) r with
      | Some (d, t) =>
          match skip_ws t with
          | EmptyString => Ret d
          | _ => Raise "JSONDecodeError: Extra data"
          end
      | None => Raise "JSONDecodeError"
      end
  | _ => Raise "JSONDecodeError"
  end.


(* ------------------------------------------------------------------ *)
(** ** cli.py: [enqueue] and [dlq retry] *)

(** Exit status and resulting store of a CLI command. *)
Definition cli_result := (Z * Store.t)%type.

Section Cli.
  Variable isoformat : Z -> string.

  (** [enqueue(job_json)] on the parsed JSON object [job_data]. The
      [existing_job] test is on a [Job] instance, which is always truthy. *)
Definition enqueue (now : Z) (s : Store.t) (job_data : pydict) : cli_result :=
    let config := s.(Store.config) in
    let job_data :=
      if has_key job_data "max_retries" then job_data
      else dict_set job_data "max_retries" (PInt config.(Config.max_retries)) in
    match from_dict (isoformat now) job_data with
    | Raise _ => (1, s)
    | Ret job =>
        match Store.get_job s job.(Job.id) with
        | Some _ => (1, s)
        | None => (0, Store.save_job isoformat now s job)
        end
    end.

  (** [dlq_retry(job_id, reset_attempts)]. *)
Definition dlq_retry (now : Z) (s : Store.t) (job_id : string)
      (reset_attempts : bool) : cli_result :=
    match Store.get_job s job_id with
    | None => (1, s)
    | Some job =>
        if negb (String.eqb job.(Job.state) JobState.DEAD) then (1, s)
        else
          let job := Job.set_state job JobState.PENDING in
          let job := Job.set_error_message job None in
          let job := Job.set_next_retry_at job None in
          let job := if reset_attempts then Job.set_attempts job 0 else job in
          (0, Store.save_job isoformat now s job)
    end.
End Cli.

(* ------------------------------------------------------------------ *)
(** ** One iteration of [Worker.start] *)

Section WorkerLoop.
  Variable isoformat : Z -> string.
  Variable grace : Z.

  (** Reload the config, [acquire_job], [_execute_job] on the runner's
      outcome [out], then its [finally] block: [save_job] and
      [release_job]. Returns [None] when no job was acquired (the worker
      sleeps), otherwise the store and the exception that ends the loop,
      if any. *)
Definition worker_iteration (s : Store.t) (worker_id : string) (now : Z)
      (out : run_outcome) : option (Store.t * option string) :=
    let config := s.(Store.config) in
    match Store.acquire_next isoformat grace s worker_id now with
    | None => None
    | Some (job, s1) =>
        let '(job', exc) := execute_job isoformat config now job out in
        let s2 := Store.save_job isoformat now s1 job' in
        Some (Store.release_job s2 job'.(Job.id), exc)
    end.
End WorkerLoop.

(* ------------------------------------------------------------------ *)
(** ** Interleavings of store operations *)

(** Every store operation is one atomic commit (spec section 4.1), so any
    interleaving of CLI commands and worker iterations is a sequence of
    these operations. *)
Inductive store_op :=
| OpSaveJob (now : Z) (j : Job.t)
| OpAcquire (worker_id : string) (now : Z)
| OpRelease (job_id : string)
| OpDelete (job_id : string)
| OpSaveConfig (c : Config.t).

Section Interleaving.
  Variable isoformat : Z -> string.
  Variable grace : Z.

  (** The final store and the ids returned by successful acquisitions, in
      order. *)
Fixpoint run_ops (s : Store.t) (ops : list store_op) : Store.t * list string :=
    match ops with
    | [] => (s, [])
    | OpAcquire w now :: rest =>
        match Store.acquire_next isoformat grace s w now with
        | Some (j, s') => let '(s'', log) := run_ops s' rest in (s'', j.(Job.id) :: log)
        | None => run_ops s rest
        end
    | OpSaveJob now j :: rest => run_ops (Store.save_job isoformat now s j) rest
    | OpRelease x :: rest => run_ops (Store.release_job s x) rest
    | OpDelete x :: rest => run_ops (Store.delete_job s x) rest
    | OpSaveConfig c :: rest => run_ops (Store.save_config s c) rest
    end.
End Interleaving.

(* ------------------------------------------------------------------ *)
(** ** The whole system: the store and the workers' in-memory jobs *)

(** What a worker holds between its commits: the config snapshot and the
    job it acquired (its copy is incremented and executed in memory), or,
    after [save_job], the id it still has to release. *)
Inductive worker_phase :=
| Running (cfg : Config.t) (job : Job.t)
| Saved (job_id : string).

Record sys := mk_sys {
  store : Store.t;
  workers : gmap string worker_phase
}.

(** One commit of some process. *)
Inductive sys_label :=
| LEnqueue (now : Z) (job_data : pydict)        (* the enqueue command *)
| LAcquire (worker_id : string) (now : Z)      (* config reload and acquire_job *)
| LFinish (worker_id : string) (now : Z) (out : run_outcome)
                                               (* _execute_job and its save_job *)
| LRelease (worker_id : string)                (* release_job in the finally block *)
| LCrash (worker_id : string)                  (* the worker process is killed *)
| LDlqRetry (now : Z) (job_id : string) (reset_attempts : bool)
| LDelete (job_id : string).                   (* clear / dlq clear *)

Section System.
  Variable isoformat : Z -> string.
  Variable grace : Z.

Definition sys_step (st : sys) (l : sys_label) : option sys :=
    let s := st.(store) in
    match l with
    | LEnqueue now data => Some (mk_sys (enqueue isoformat now s data).2 st.(workers))
    | LAcquire w now =>
        match st.(workers) !! w with
        | Some _ => None
        | None =>
            let config := s.(Store.config) in
            match Store.acquire_next isoformat grace s w now with
            | Some (j, s') => Some (mk_sys s' (<[w := Running config j]> st.(workers)))
            | None => Some st
            end
        end
    | LFinish w now out =>
        match st.(workers) !! w with
        | Some (Running config j) =>
            let j' := (execute_job isoformat config now j out).1 in
            Some (mk_sys (Store.save_job isoformat now s j')
                         (<[w := Saved j'.(Job.id)]> st.(workers)))
        | _ => None
        end
    | LRelease w =>
        match st.(workers) !! w with
        | Some (Saved x) => Some (mk_sys (Store.release_job s x) (delete w st.(workers)))
        | _ => None
        end
    | LCrash w => Some (mk_sys s (delete w st.(workers)))
    | LDlqRetry now x reset =>
        Some (mk_sys (dlq_retry isoformat now s x reset).2 st.(workers))
    | LDelete x => Some (mk_sys (Store.delete_job s x) st.(workers))
    end.

Fixpoint run_sys (st : sys) (ls : list sys_label) : option sys :=
    match ls with
    | [] => Some st
    | l :: rest => match sys_step st l with Some st' => run_sys st' rest | None => None end
    end.
End System.

Definition sys_init (cfg : Config.t) : sys := mk_sys (Store.empty cfg) ∅.

(* ------------------------------------------------------------------ *)
(** ** Store invariant: every record is stored under its own id *)

Definition well_keyed (s : Store.t) : Prop :=
  forall k r, s.(Store.jobs) !! k = Some r -> r.(Store.job).(Job.id) = k.

(* ------------------------------------------------------------------ *)
(** ** worker.py: the loop of [Worker.start] *)

(** One pass of [while self.running] as the environment drives it: the
    clock during the pass, what [subprocess.run] gives if a job is
    acquired, and whether a shutdown signal ([_handle_shutdown]) arrives
    during the pass. *)
Record tick := mk_tick {
  tick_now : Z;
  tick_out : run_outcome;
  tick_signal : bool
}.

(** How a run of [Worker.start] over a finite schedule ends. *)
Inductive worker_exit :=
| StillRunning          (* the schedule ends with [self.running] still true *)
| Stopped               (* the loop test finds [self.running] false *)
| Crashed (msg : string). (* an exception left the loop: [except Exception] *)

Section WorkerStart.
  Variable isoformat : Z -> string.
  Variable grace : Z.

  (** [Worker.start]: reload the config, [acquire_job], then sleep or
      [_execute_job] (whose [finally] saves and releases the job). An
      exception propagating out of [_execute_job] leaves
      [self.current_job] set, so the outer [finally] releases that job
      once more. *)
Fixpoint worker_start (s : Store.t) (worker_id : string) (ticks : list tick)
      : Store.t * worker_exit :=
    match ticks with
    | [] => (s, StillRunning)
    | t :: rest =>
        let config := s.(Store.config) in
        match Store.acquire_next isoformat grace s worker_id t.(tick_now) with
        | None => if t.(tick_signal) then (s, Stopped) else worker_start s worker_id rest
        | Some (job, s1) =>
            let '(job', exc) := execute_job isoformat config t.(tick_now) job t.(tick_out) in
            let s2 := Store.release_job
                        (Store.save_job isoformat t.(tick_now) s1 job') job'.(Job.id) in
            match exc with
            | Some e => (Store.release_job s2 job'.(Job.id), Crashed e)
            | None =>
                if t.(tick_signal) then (s2, Stopped) else worker_start s2 worker_id rest
            end
        end
    end.
End WorkerStart.

(* ------------------------------------------------------------------ *)
(** ** cli.py: [enqueue] and [get] on their text arguments *)

Section CliText.
  Variable isoformat : Z -> string.
  (** [open(file_path, 'r')] read to the end; [None] when it raises. *)
  Variable read_file : string -> option string.

  (** [enqueue(job_json)]: a leading [@] names a file holding the JSON
      text ([json.load(f)] is [json.loads(f.read())]); every exception
      ends in exit status 1. *)
Definition enqueue_cmd (now : Z) (s : Store.t) (job_json : string) : cli_result :=
    let text := match job_json with
                | String "@"%char file_path => read_file file_path
                | _ => Some job_json
                end in
    match text with
    | None => (1, s)
    | Some t =>
        match json_loads t with
        | Raise _ => (1, s)
        | Ret job_data => enqueue isoformat now s job_data
        end
    end.
End CliText.

(** [get(job_id)]: the exit status and the text written to stdout
    ([click.echo] adds a newline). *)
Definition get_cmd (s : Store.t) (job_id : string) : Z * string :=
  match Store.get_job s job_id with
  | None => (1, EmptyString)
  | Some job =>
      match to_json job with
      | Ret t => (0, String "010"%char (t +:+ String "010"%char EmptyString))
      | Raise _ => (1, EmptyString)
      end
  end.

(* ------------------------------------------------------------------ *)
(** ** cli.py: [config set] *)

(** [str.isspace()] on code points 0..255. *)
Definition is_unicode_space (c : ascii) : bool :=
  is_py_space c || (nat_of_ascii c =? 133)%nat || (nat_of_ascii c =? 160)%nat.

Fixpoint lstrip_unicode (s : string) : string :=
  match s with
  | EmptyString => EmptyString
  | String c r => if is_unicode_space c then lstrip_unicode r else s
  end.

Fixpoint all_unicode_space (s : string) : bool :=
  match s with
  | EmptyString => true
  | String c r => is_unicode_space c && all_unicode_space r
  end.

(** The digits of [int(str)] after the first one: a digit, or one
    underscore followed by a digit. The value, the number of digits and
    the rest of the text. *)
Fixpoint int_digits (acc n : Z) (s : string) : option (Z * Z * string) :=
  match s with
  | EmptyString => Some (acc, n, EmptyString)
  | String c r =>
      if is_digit c then int_digits (10 * acc + digit_val c) (n + 1) r
      else if Ascii.eqb c "_"%char then
        match r with
        | String d r' =>
            if is_digit d then int_digits (10 * acc + digit_val d) (n + 1) r' else None
        | EmptyString => None
        end
      else Some (acc, n, s)
  end.

(** [int(value)] for a [str] (base 10): surrounding whitespace, an
    optional sign, digits with single underscores between them. A text
    with more than [max_str_digits] digits is refused
    ([sys.get_int_max_str_digits()], 0 meaning no limit). [None] is the
    [ValueError]. *)
Definition py_int (max_str_digits : Z) (value : string) : option Z :=
  let s := lstrip_unicode value in
  let '(neg, s) :=
    match s with
    | String c r =>
        if Ascii.eqb c "-"%char then (true, r)
        else if Ascii.eqb c "+"%char then (false, r)
        else (false, s)
    | EmptyString => (false, s)
    end in
  match s with
  | String c r =>
      if is_digit c then
        match int_digits (digit_val c) 1 r with
        | Some (v, n, rest) =>
            if all_unicode_space rest then
              if (0 <? max_str_digits) && (max_str_digits <? n) then None
              else Some (if neg then - v else v)
            else None
        | None => None
        end
      else None
  | EmptyString => None
  end.

(** The keys of [key_map]. *)
Inductive config_key := KMaxRetries | KBackoffBase | KWorkerPollInterval | KJobTimeout.

Definition config_key_of (key : string) : option config_key :=
  if String.eqb key "max-retries" then Some KMaxRetries
  else if String.eqb key "backoff-base" then Some KBackoffBase
  else if String.eqb key "worker-poll-interval" then Some KWorkerPollInterval
  else if String.eqb key "job-timeout" then Some KJobTimeout
  else None.

Definition config_with (cfg : Config.t) (k : config_key) (v : Z) : Config.t :=
  match k with
  | KMaxRetries => Config.mk v cfg.(Config.backoff_base) cfg.(Config.job_timeout)
  | KBackoffBase => Config.mk cfg.(Config.max_retries) v cfg.(Config.job_timeout)
  | KJobTimeout => Config.mk cfg.(Config.max_retries) cfg.(Config.backoff_base) v
  | KWorkerPollInterval => cfg
  end.

Section ConfigSet.
  Variable max_str_digits : Z.
  (** Whether [float(value)] succeeds; the float field itself is not part
      of [Config.t]. *)
  Variable py_float_ok : string -> bool.

  (** [config_set(key, value)]: the three [int] fields go through
      [int(value)], [worker_poll_interval] through [float(value)]. *)
Definition config_set (s : Store.t) (key value : string) : cli_result :=
    match config_key_of key with
    | None => (1, s)
    | Some KWorkerPollInterval =>
        if py_float_ok value then (0, Store.save_config s s.(Store.config)) else (1, s)
    | Some k =>
        match py_int max_str_digits value with
        | None => (1, s)
        | Some v => (0, Store.save_config s (config_with s.(Store.config) k v))
        end
    end.
End ConfigSet.

(* ------------------------------------------------------------------ *)
(** ** cli.py: state filters, [clear], [dlq clear], [list], [dlq list], [status] *)

(** [str.lower()] on code points 0..255: [A]..[Z] and [À]..[Þ] except
    [×] move up by 32. *)
Definition py_lower_char (c : ascii) : ascii :=
  let n := nat_of_ascii c in
  if ((65 <=? n) && (n <=? 90))%nat
     || ((192 <=? n) && (n <=? 222) && negb (n =? 215))%nat
  then ascii_of_nat (n + 32) else c.

Fixpoint py_lower (s : string) : string :=
  match s with
  | EmptyString => EmptyString
  | String c r => String (py_lower_char c) (py_lower r)
  end.

Definition valid_states : list string :=
  [JobState.PENDING; JobState.PROCESSING; JobState.COMPLETED; JobState.FAILED; JobState.DEAD].

(** Modelled from the spec: [list_all()], read-only. The order of the
    rows is not specified; the map's order is used. *)
Definition get_all_jobs (s : Store.t) : list Job.t :=
  (fun kv => kv.2.(Store.job)) <$> map_to_list s.(Store.jobs).

(** Modelled from the spec: [list_by_state(s)], read-only. *)
Definition get_jobs_by_state (s : Store.t) (state : string) : list Job.t :=
  List.filter (fun j => String.eqb j.(Job.state) state) (get_all_jobs s).

(** The [--state] option of [list] and [clear]: [None] when absent;
    [if state:] treats the empty text as absent; [None] is the exit on
    an invalid state. *)
Definition state_filter (s : Store.t) (state : option string) : option (list Job.t) :=
  match state with
  | Some st =>
      if py_truthy_str st then
        let st := py_lower st in
        if existsb (String.eqb st) valid_states then Some (get_jobs_by_state s st) else None
      else Some (get_all_jobs s)
  | None => Some (get_all_jobs s)
  end.

Definition delete_all (s : Store.t) (jobs : list Job.t) : Store.t :=
  fold_left (fun s j => Store.delete_job s j.(Job.id)) jobs s.

(** [clear_jobs(state)]: exit status, store, and the count reported. *)
Definition clear_jobs (s : Store.t) (state : option string) : Z * Store.t * nat :=
  match state_filter s state with
  | None => (1, s, 0%nat)
  | Some jobs => (0, delete_all s jobs, length jobs)
  end.

(** [dlq_clear()]: store and the count reported. *)
Definition dlq_clear (s : Store.t) : Store.t * nat :=
  let jobs := get_jobs_by_state s JobState.DEAD in
  (delete_all s jobs, length jobs).

(** [if len(x) > limit: x = x[:keep] + "..."]. *)
Definition py_truncate (limit keep : nat) (x : string) : string :=
  if (limit <? String.length x)%nat then String.substring 0 keep x +:+ "..." else x.

(** A row of [table_data] in [list_jobs]. *)
Definition list_row (job : Job.t) : list string :=
  let command := py_truncate 40 37 job.(Job.command) in
  let error := match job.(Job.error_message) with
               | Some e => if py_truthy_str e then py_truncate 30 27 e else EmptyString
               | None => EmptyString
               end in
  [job.(Job.id); command; job.(Job.state);
   pretty job.(Job.attempts) +:+ "/" +:+ pretty job.(Job.max_retries);
   error; String.substring 0 19 job.(Job.created_at)].

(** [l[:limit]] for an [int] limit. *)
Definition py_slice_to {A} (l : list A) (limit : Z) : list A :=
  if 0 <=? limit then firstn (Z.to_nat limit) l
  else firstn (Z.to_nat (Z.of_nat (length l) + limit)) l.

(** What [list_jobs] prints on stdout: nothing, "No jobs found", or the
    table rows, the number in "Showing N job(s)", and whether the
    "Limited to" line follows. *)
Inductive list_output :=
| NoOutput
| NoJobs
| Table (rows : list (list string)) (shown : Z) (limited : bool).

(** The rows are built before anything is printed; the f-string
    [f"{job.attempts}/{job.max_retries}"] raises on a number of more than
    4300 digits, and [main] turns the exception into exit status 1. *)
Definition list_jobs (s : Store.t) (state : option string) (limit : Z) : Z * list_output :=
  match state_filter s state with
  | None => (1, NoOutput)
  | Some [] => (0, NoJobs)
  | Some jobs =>
      let jobs := py_slice_to jobs limit in
      if forallb (fun j => int_str_ok j.(Job.attempts) && int_str_ok j.(Job.max_retries)) jobs
      then (0, Table (list_row <$> jobs) (Z.of_nat (length jobs)) (Z.of_nat (length jobs) =? limit))
      else (1, NoOutput)
  end.

(** A row of [table_data] in [dlq_list]; [job.error_message or ""]. *)
Definition dlq_row (job : Job.t) : list string :=
  let error := match job.(Job.error_message) with Some e => e | None => EmptyString end in
  [job.(Job.id); py_truncate 40 37 job.(Job.command); pretty job.(Job.attempts);
   py_truncate 40 37 error; String.substring 0 19 job.(Job.updated_at)].

(** [dlq_list()]: the rows and the total, or [None] for "No jobs in DLQ".
    [tabulate] formats the [attempts] column, of type [int], with
    [format(n, intfmt)], which raises on a number of more than 4300
    digits before anything is printed. *)
Definition dlq_list (s : Store.t) : py_result (option (list (list string) * nat)) :=
  match get_jobs_by_state s JobState.DEAD with
  | [] => Ret None
  | jobs =>
      if forallb (fun j => int_str_ok j.(Job.attempts)) jobs
      then Ret (Some (dlq_row <$> jobs, length jobs))
      else Raise ("ValueError: " +:+ INT_STR_LIMIT_MSG)
  end.

(** [d[k] += 1] on a counting [dict], a new key entering with 1. *)
Fixpoint count_into (counts : list (string * Z)) (k : string) : list (string * Z) :=
  match counts with
  | [] => [(k, 1)]
  | (k', c) :: rest =>
      if String.eqb k' k then (k', c + 1) :: rest else (k', c) :: count_into rest k
  end.

(** Modelled from the spec: [counts_by_state()], the number of records
    per state value, as a [dict]. *)
Definition get_job_counts (s : Store.t) : list (string * Z) :=
  fold_left (fun counts j => count_into counts j.(Job.state)) (get_all_jobs s) [].

(** [counts.get(state, 0)]. *)
Fixpoint counts_get (counts : list (string * Z)) (k : string) : Z :=
  match counts with
  | [] => 0
  | (k', c) :: rest => if String.eqb k' k then c else counts_get rest k
  end.

(** [state.upper()] on the five state names, which are ASCII lower case. *)
Definition ascii_upper_char (c : ascii) : ascii :=
  let n := nat_of_ascii c in
  if ((97 <=? n) && (n <=? 122))%nat then ascii_of_nat (n - 32) else c.

Fixpoint ascii_upper (s : string) : string :=
  match s with
  | EmptyString => EmptyString
  | String c r => String (ascii_upper_char c) (ascii_upper r)
  end.

(** [status()]: the rows [[icon, STATE, count]] (the icon as "count > 0")
    and the "Total jobs" figure [sum(counts.values())]. *)
Definition status_rows (s : Store.t) : list (bool * string * Z) :=
  let counts := get_job_counts s in
  (fun st => let count := counts_get counts st in (0 <? count, ascii_upper st, count))
    <$> valid_states.

Definition status_total (s : Store.t) : Z :=
  foldr (fun kv acc => kv.2 + acc) 0 (get_job_counts s).

(* ================================================================== *)
(** * Properties *)

Lemma set_updated_at_id j u : (Job.set_updated_at j u).(Job.id) = j.(Job.id).
Proof. by destruct j. Qed.

Lemma save_job_lookup iso now s j :
  (Store.save_job iso now s j).(Store.jobs) !! j.(Job.id)
  = Some (Store.mk_row (Job.set_updated_at j (iso now))
            (match s.(Store.jobs) !! j.(Job.id) with
             | Some old => old.(Store.lease_owner) | None => None end)
            (match s.(Store.jobs) !! j.(Job.id) with
             | Some old => old.(Store.lease_expires_at) | None => None end)).
Proof.
  unfold Store.save_job, Store.set_jobs; cbn [Store.jobs].
  rewrite set_updated_at_id, lookup_insert_eq.
  by destruct (s.(Store.jobs) !! j.(Job.id)).
Qed.

Lemma get_job_save iso now s j :
  Store.get_job (Store.save_job iso now s j) j.(Job.id)
  = Some (Job.set_updated_at j (iso now)).
Proof. unfold Store.get_job. by rewrite save_job_lookup. Qed.

Lemma get_job_well_keyed s x j :
  well_keyed s -> Store.get_job s x = Some j -> j.(Job.id) = x.
Proof.
  unfold Store.get_job. intros Hwk Hg.
  destruct (s.(Store.jobs) !! x) as [r|] eqn:E; simpl in Hg; [|done].
  injection Hg as <-. by apply (Hwk x r).
Qed.

(** ** C9: the backoff delay *)

(** C9. [backoff_delay k b] (the code's [backoff_base ** attempts]) is the
    exact integer [b^k], that is [k] factors [b], for every [k >= 0]; and
    for a base [b > 1] it is strictly increasing in [k]. *)
Theorem backoff_delay_exact_and_increasing :
  (forall (n : nat) (b : Z), backoff_delay (Z.of_nat n) b = Nat.iter n (Z.mul b) 1)
  /\ (forall b k1 k2 : Z, 1 < b -> 0 <= k1 -> k1 < k2 ->
        backoff_delay k1 b < backoff_delay k2 b).
Proof.
  split.
  - intros n b. unfold backoff_delay. induction n as [|n IH]; [done|].
    rewrite Nat2Z.inj_succ, Z.pow_succ_r; [|lia].
    simpl. rewrite IH. lia.
  - intros b k1 k2 Hb Hk1 Hlt. unfold backoff_delay.
    apply Z.pow_lt_mono_r; lia.
Qed.

Lemma backoff_delay_exact_and_increasing_witness :
  backoff_delay (Z.of_nat 3) 2 = 8 /\ backoff_delay 2 3 < backoff_delay 5 3.
Proof.
  split.
  - rewrite (proj1 backoff_delay_exact_and_increasing). reflexivity.
  - apply (proj2 backoff_delay_exact_and_increasing); lia.
Defined.


Lemma well_keyed_empty cfg : well_keyed (Store.empty cfg).
Proof. intros k r Hk. simpl in Hk. by rewrite lookup_empty in Hk. Qed.

Lemma well_keyed_save iso now s j :
  well_keyed s -> well_keyed (Store.save_job iso now s j).
Proof.
  intros Hwk k r. unfold Store.save_job, Store.set_jobs; cbn [Store.jobs].
  rewrite (set_updated_at_id j (iso now)), lookup_insert.
  case_decide as Hk; [subst k|by apply Hwk].
  intros Hr. destruct (s.(Store.jobs) !! j.(Job.id)); injection Hr as <-;
    by destruct j.
Qed.

(** ** C5: [dlq retry] *)

(** C5. On a store whose records sit under their own ids, [dlq retry X]
    exits 0 exactly when a job X exists with [state = dead]. It then
    stores X with [state = pending], no [error_message], no
    [next_retry_at], [attempts] set to 0 when [--reset-attempts] is given
    and unchanged otherwise (the other fields kept, [updated_at] bumped by
    the write). When X exists with another state it exits 1 and the store
    is left as it was. *)
Theorem dlq_retry_contract iso now (s : Store.t) (x : string) (reset : bool) :
  well_keyed s ->
  (fst (dlq_retry iso now s x reset) = 0 <->
     exists j, Store.get_job s x = Some j /\ j.(Job.state) = JobState.DEAD)
  /\ (forall j, Store.get_job s x = Some j -> j.(Job.state) = JobState.DEAD ->
        Store.get_job (snd (dlq_retry iso now s x reset)) x
        = Some (Job.mk j.(Job.id) j.(Job.command) JobState.PENDING
                  (if reset then 0 else j.(Job.attempts)) j.(Job.max_retries)
                  j.(Job.created_at) (iso now) None None))
  /\ (forall j, Store.get_job s x = Some j -> j.(Job.state) <> JobState.DEAD ->
        dlq_retry iso now s x reset = (1, s)).
Proof.
  intros Hwk. unfold dlq_retry.
  destruct (Store.get_job s x) as [j|] eqn:Hg.
  - pose proof (get_job_well_keyed s x j Hwk Hg) as Hid.
    destruct (String.eqb_spec j.(Job.state) JobState.DEAD) as [Hd|Hd]; simpl.
    + split; [split; [intros _; by exists j | done]|].
      split; [|intros j' [= <-]; done].
      intros j' [= <-] _.
      set (j1 := if reset then _ else _).
      assert (Hj1 : j1.(Job.id) = x) by (subst j1; destruct reset; destruct j; done).
      rewrite <- Hj1 at 1. rewrite get_job_save. f_equal.
      subst j1. destruct reset; destruct j; done.
    + split; [split; [done | intros (j' & [= <-] & Hs); done]|].
      split; [intros j' [= <-] Hs; done | done].
  - simpl. split; [split; [done | intros (j' & [=] & _)]|].
    split; intros j' [=].
Qed.

Definition dead_job : Job.t :=
  Job.mk "j2" "exit 1" JobState.DEAD 2 2 "t0" "t1" None (Some "boom").

Lemma dlq_retry_contract_witness :
  well_keyed (Store.save_job pretty 0 (Store.empty Config.default) dead_job)
  /\ Store.get_job
       (snd (dlq_retry pretty 5 (Store.save_job pretty 0 (Store.empty Config.default) dead_job)
               "j2" true)) "j2"
     = Some (Job.mk "j2" "exit 1" JobState.PENDING 0 2 "t0" (pretty 5) None None).
Proof.
  assert (Hwk := well_keyed_save pretty 0 _ dead_job (well_keyed_empty Config.default)).
  split; [exact Hwk|].
  apply (proj1 (proj2 (dlq_retry_contract pretty 5 _ "j2" true Hwk))
           (Job.set_updated_at dead_job (pretty 0))).
  - reflexivity.
  - reflexivity.
Defined.

(** ** Facts about [from_dict] and [enqueue] *)

Ltac py_bind_inv H :=
  repeat match type of H with
  | py_bind ?r _ = Ret _ =>
      let E := fresh "E" in
      destruct r eqn:E; [cbn [py_bind] in H | discriminate H]
  end.

Lemma dict_get_set_ne d k k' v :
  k <> k' -> dict_get (dict_set d k v) k' = dict_get d k'.
Proof.
  intros Hne. induction d as [|[k1 v1] d IH]; simpl.
  - destruct (String.eqb_spec k' k); congruence.
  - destruct (String.eqb_spec k k1) as [->|Hk]; simpl.
    + destruct (String.eqb_spec k' k1); congruence.
    + by rewrite IH.
Qed.

(** What [from_dict] reads for the [id] and [state] fields. *)
Lemma from_dict_id_state now_iso d j :
  from_dict now_iso d = Ret j ->
  dict_get d "id" = Some (PStr j.(Job.id))
  /\ j.(Job.state) = match dict_get d "state" with
                     | Some (PStr st) => st
                     | _ => JobState.PENDING
                     end.
Proof.
  unfold from_dict. intros H.
  destruct (List.find _ d) as [[k v]|]; [discriminate H|].
  cbn [List.filter negb] in H.
  destruct (has_key d "id") eqn:Hid; cbn [negb] in H;
    destruct (has_key d "command"); cbn [negb] in H; try discriminate H.
  py_bind_inv H. injection H as <-. cbn [Job.id Job.state].
  unfold has_key in Hid. unfold arg_default in *.
  destruct (dict_get d "id") as [v|]; [|discriminate Hid].
  destruct v; cbn in E; try discriminate E. injection E as ->.
  split; [done|].
  destruct (dict_get d "state") as [v|]; [|by injection E1].
  destruct v; cbn in E1; try discriminate E1. by injection E1.
Qed.

Lemma enqueue_ok_inv iso now s data code s' :
  enqueue iso now s data = (code, s') ->
  (code = 1 /\ s' = s)
  \/ (code = 0 /\ exists j,
        from_dict (iso now)
          (if has_key data "max_retries" then data
           else dict_set data "max_retries" (PInt s.(Store.config).(Config.max_retries)))
        = Ret j
        /\ Store.get_job s j.(Job.id) = None
        /\ s' = Store.save_job iso now s j).
Proof.
  unfold enqueue. intros H.
  destruct (from_dict _ _) as [j|e] eqn:Hf.
  - destruct (Store.get_job s j.(Job.id)) eqn:Hg.
    + injection H as <- <-. by left.
    + injection H as <- <-. right. split; [done|]. by exists j.
  - injection H as <- <-. by left.
Qed.

Lemma dict_get_max_retries_default d v k :
  k <> "max_retries" ->
  dict_get (if has_key d "max_retries" then d else dict_set d "max_retries" v) k
  = dict_get d k.
Proof.
  intros Hk. destruct (has_key d "max_retries"); [done|].
  apply dict_get_set_ne. congruence.
Qed.

(** ** C6: duplicate ids are refused *)

(** C6. When the store already holds a job X, enqueueing a JSON object
    whose [id] is X exits with status 1 and leaves the store, in
    particular the record of X, unchanged. *)
Theorem enqueue_duplicate_rejected iso now (s : Store.t) (data : pydict)
    (x : string) (existing : Job.t) :
  Store.get_job s x = Some existing ->
  dict_get data "id" = Some (PStr x) ->
  enqueue iso now s data = (1, s).
Proof.
  intros Hex Hid.
  destruct (enqueue iso now s data) as [code s'] eqn:He.
  destruct (enqueue_ok_inv _ _ _ _ _ _ He) as [[-> ->]|[-> (j & Hf & Hg & ->)]];
    [done|].
  apply from_dict_id_state in Hf as [Hjid _].
  rewrite dict_get_max_retries_default in Hjid by done.
  rewrite Hid in Hjid. injection Hjid as Hjid.
  rewrite <- Hjid, Hex in Hg. discriminate.
Qed.

Definition job_j1 : Job.t :=
  Job.mk "j1" "echo hi" JobState.PENDING 0 3 "t0" "t0" None None.

Lemma enqueue_duplicate_rejected_witness :
  enqueue pretty 7 (Store.save_job pretty 0 (Store.empty Config.default) job_j1)
    [("id", PStr "j1"); ("command", PStr "echo other")]
  = (1, Store.save_job pretty 0 (Store.empty Config.default) job_j1).
Proof.
  apply (enqueue_duplicate_rejected pretty 7 _ _ "j1" (Job.set_updated_at job_j1 (pretty 0))).
  - reflexivity.
  - reflexivity.
Defined.

(** ** C7: the state of a newly enqueued job *)

(** C7 (counterexample). The JSON object
    [{"id": "j5", "command": "echo hi", "state": "completed"}] follows the
    documented job schema; enqueueing it on an empty store succeeds and
    inserts a job whose state is [completed], not [pending]. *)
Lemma enqueue_initial_state_counterexample :
  let '(code, s') := enqueue pretty 0 (Store.empty Config.default)
                       [("id", PStr "j5"); ("command", PStr "echo hi");
                        ("state", PStr JobState.COMPLETED)] in
  code = 0 /\ (Job.state <$> Store.get_job s' "j5") = Some JobState.COMPLETED.
Proof. vm_compute. split; reflexivity. Qed.

(** C7 (amended). When enqueue succeeds (exit 0), the id X of the input
    was absent from the store, and the store now holds X with the state
    given by the input's ["state"] field, or [pending] when the input has
    none. *)
Theorem enqueue_inserted_state iso now (s s' : Store.t) (data : pydict) :
  enqueue iso now s data = (0, s') ->
  exists j : Job.t,
    dict_get data "id" = Some (PStr j.(Job.id))
    /\ Store.get_job s j.(Job.id) = None
    /\ Store.get_job s' j.(Job.id) = Some j
    /\ j.(Job.state) = match dict_get data "state" with
                       | Some (PStr st) => st
                       | _ => JobState.PENDING
                       end.
Proof.
  intros He.
  destruct (enqueue_ok_inv _ _ _ _ _ _ He) as [[H1 _]|[_ (j & Hf & Hg & ->)]];
    [discriminate|].
  apply from_dict_id_state in Hf as [Hid Hst].
  rewrite !dict_get_max_retries_default in Hid, Hst by done.
  exists (Job.set_updated_at j (iso now)).
  rewrite set_updated_at_id. split; [done|]. split; [done|].
  split; [apply get_job_save|].
  rewrite <- Hst. by destruct j.
Qed.

Lemma enqueue_inserted_state_witness :
  enqueue pretty 0 (Store.empty Config.default)
    [("id", PStr "j1"); ("command", PStr "echo hi")]
  = (0, Store.save_job pretty 0 (Store.empty Config.default)
          (Job.mk "j1" "echo hi" JobState.PENDING 0 3 "0" "0" None None))
  /\ exists j : Job.t,
       Some (PStr "j1") = Some (PStr j.(Job.id))
       /\ Store.get_job (Store.empty Config.default) j.(Job.id) = None
       /\ Store.get_job (Store.save_job pretty 0 (Store.empty Config.default)
              (Job.mk "j1" "echo hi" JobState.PENDING 0 3 "0" "0" None None))
            j.(Job.id) = Some j
       /\ j.(Job.state) = JobState.PENDING.
Proof.
  assert (He : enqueue pretty 0 (Store.empty Config.default)
                 [("id", PStr "j1"); ("command", PStr "echo hi")]
               = (0, Store.save_job pretty 0 (Store.empty Config.default)
                       (Job.mk "j1" "echo hi" JobState.PENDING 0 3 "0" "0" None None)))
    by reflexivity.
  split; [exact He|].
  exact (enqueue_inserted_state pretty 0 _ _ _ He).
Defined.

(** ** C1, C2, C8: the record persisted at the end of an attempt *)

(** [_handle_job_failure] when the retry date is representable and the
    numbers it prints are within the digit limit: [dead]
    without retry date once the budget is spent, otherwise [failed] with
    retry date [now + base^attempts] seconds; the message is recorded in
    both cases and nothing is raised. *)
Lemma handle_job_failure_in_range iso cfg now job msg :
  let b := backoff_delay job.(Job.attempts) cfg.(Config.backoff_base) in
  (job.(Job.max_retries) <= job.(Job.attempts) ->
     int_str_ok job.(Job.attempts) = true ->
     handle_job_failure iso cfg now job msg
     = (Job.set_next_retry_at
          (Job.set_state (Job.set_error_message job (Some msg)) JobState.DEAD) None, None))
  /\ (job.(Job.attempts) < job.(Job.max_retries) ->
      timedelta_seconds b = Ret (b * US_PER_SECOND) ->
      datetime_add now (b * US_PER_SECOND) = Ret (now + b * US_PER_SECOND) ->
      int_str_ok job.(Job.attempts) && int_str_ok job.(Job.max_retries) && int_str_ok b = true ->
      handle_job_failure iso cfg now job msg
      = (Job.set_next_retry_at
           (Job.set_state (Job.set_error_message job (Some msg)) JobState.FAILED)
           (Some (iso (now + b * US_PER_SECOND))), None)).
Proof.
  cbn zeta. unfold handle_job_failure. split.
  - intros Hge Hok. destruct job; cbn in *.
    replace (attempts >=? max_retries) with true by lia. by rewrite Hok.
  - intros Hlt Htd Hdt Hok. destruct job; cbn in *.
    replace (attempts >=? max_retries) with false by lia.
    by rewrite Htd, Hdt, Hok.
Qed.

Definition NOW_2026 : Z := 739616 * SECONDS_PER_DAY * US_PER_SECOND.

(** A job with a retry budget of 50 that has failed 37 times. *)
Definition long_budget_job : Job.t :=
  Job.mk "j3" "false" JobState.PENDING 37 50 "t0" "t0" None None.

Definition long_budget_store : Store.t :=
  Store.save_job pretty 0 (Store.empty Config.default) long_budget_job.

(** A failed job whose retry time has come. *)
Definition retried_job : Job.t :=
  Job.mk "j2" "flaky" JobState.FAILED 1 3 "t0" "t1" (Some (pretty 5)) (Some "boom").

Definition retried_store : Store.t :=
  Store.save_job pretty 0 (Store.empty Config.default) retried_job.

(** The record of [x] after one worker iteration, and the exception that
    stops the worker, if any. *)
Definition after_iteration (s : Store.t) (x : string) (now : Z) (out : run_outcome)
    : option (option Job.t * option string) :=
  match worker_iteration pretty 5 s "w1" now out with
  | Some (s', exc) => Some (Store.get_job s' x, exc)
  | None => None
  end.

(** C1 (failing input). With the default [backoff_base = 2], the 38th
    failing attempt (exit code 1, stderr "boom") of a job with
    [max_retries = 50], run on 2026-01-01, needs a retry date 2^38 seconds
    (about 8700 years) ahead. [datetime + timedelta] raises
    [OverflowError("date value out of range")]: the record persisted has
    [state = failed] but no [next_retry_at], and its [error_message] is the
    overflow message, not the captured stderr; the exception then ends the
    worker loop. *)
Theorem worker_failure_backoff_overflow :
  after_iteration long_budget_store "j3" NOW_2026 (Completed 1 "" "boom")
  = Some (Some (Job.mk "j3" "false" JobState.FAILED 38 50 "t0" (pretty NOW_2026)
                  None (Some "date value out of range")),
          Some "date value out of range").
Proof. vm_compute. reflexivity. Qed.

(** C2 (failing input). A job that failed once (retry date "5") and is
    acquired at time 9 exits with code 0: the record persisted is
    [completed], [attempts = 2], no [error_message], but it keeps the old
    [next_retry_at]. *)
Theorem worker_success_keeps_next_retry_at :
  after_iteration retried_store "j2" 9 (Completed 0 "ok" "")
  = Some (Some (Job.mk "j2" "flaky" JobState.COMPLETED 2 3 "t0" (pretty 9)
                  (Some (pretty 5)) None),
          None).
Proof. vm_compute. reflexivity. Qed.

(** C8 (failing input). On the input of C1 (non-zero exit code, stderr
    "boom"), the error message recorded is the [OverflowError] message of
    the backoff computation, not the trimmed stderr. *)
Theorem worker_failure_message_overflow :
  match after_iteration long_budget_store "j3" NOW_2026 (Completed 1 "" "boom") with
  | Some (Some j, _) => j.(Job.error_message) = Some "date value out of range"
                        /\ j.(Job.error_message) <> Some (py_strip "boom")
  | _ => False
  end.
Proof. vm_compute. split; [reflexivity | discriminate]. Qed.

(** ** C3: no job is handed out twice under a live lease *)

Lemma select_spec iso now (l : list (string * Store.row)) x :
  Store.select iso now l = Some x -> x ∈ l /\ Store.eligible iso now x.2 = true.
Proof.
  induction l as [|y l IH]; simpl; [done|].
  destruct (Store.select iso now l) as [z|] eqn:Hz.
  - destruct (Store.eligible iso now y.2 && Store.before y z) eqn:Hb.
    + intros [= <-]. apply andb_true_iff in Hb as [Hb _]. split; [left|done].
    + intros [= <-]. destruct (IH eq_refl). split; [by right|done].
  - destruct (Store.eligible iso now y.2) eqn:He; [|done].
    intros [= <-]. split; [left|done].
Qed.

Lemma acquire_next_spec iso grace s w now j s' :
  Store.acquire_next iso grace s w now = Some (j, s') ->
  exists k r,
    s.(Store.jobs) !! k = Some r
    /\ Store.eligible iso now r = true
    /\ j = Job.set_updated_at (Job.set_state r.(Store.job) JobState.PROCESSING) (iso now)
    /\ s' = Store.set_jobs s
              (<[k := Store.mk_row j (Some w)
                        (Some (now + (s.(Store.config).(Config.job_timeout) + grace)
                                     * US_PER_SECOND))]> s.(Store.jobs)).
Proof.
  unfold Store.acquire_next.
  destruct (Store.select iso now (map_to_list s.(Store.jobs))) as [[k r]|] eqn:Hs;
    [|done].
  intros [= <- <-].
  apply select_spec in Hs as [Hin Hel].
  apply elem_of_map_to_list in Hin.
  by exists k, r.
Qed.

Lemma acquired_id iso s k r :
  well_keyed s -> s.(Store.jobs) !! k = Some r ->
  (Job.set_updated_at (Job.set_state r.(Store.job) JobState.PROCESSING) (iso)).(Job.id) = k.
Proof. intros Hwk Hk. rewrite <- (Hwk k r Hk). by destruct (Store.job r). Qed.

Lemma well_keyed_acquire iso grace s w now j s' :
  well_keyed s -> Store.acquire_next iso grace s w now = Some (j, s') -> well_keyed s'.
Proof.
  intros Hwk Ha.
  destruct (acquire_next_spec _ _ _ _ _ _ _ Ha) as (k & r & Hk & _ & -> & ->).
  intros k' r'. unfold Store.set_jobs; cbn [Store.jobs].
  rewrite lookup_insert. case_decide as Hkk; [subst k'|by apply Hwk].
  intros [= <-]. cbn [Store.job]. by apply (acquired_id _ s k r).
Qed.

Lemma well_keyed_release s x : well_keyed s -> well_keyed (Store.release_job s x).
Proof.
  intros Hwk. unfold Store.release_job.
  destruct (s.(Store.jobs) !! x) as [r|] eqn:Hx; [|done].
  intros k' r'. unfold Store.set_jobs; cbn [Store.jobs].
  rewrite lookup_insert. case_decide as Hkk; [subst k'|by apply Hwk].
  intros [= <-]. by apply (Hwk x r).
Qed.

Lemma well_keyed_delete s x : well_keyed s -> well_keyed (Store.delete_job s x).
Proof.
  intros Hwk k' r'. unfold Store.delete_job, Store.set_jobs; cbn [Store.jobs].
  rewrite lookup_delete. case_decide; [done|]. by apply Hwk.
Qed.

Lemma well_keyed_run_ops iso grace s ops :
  well_keyed s -> well_keyed (run_ops iso grace s ops).1.
Proof.
  revert s. induction ops as [|op ops IH]; intros s Hwk; [done|].
  destruct op; simpl.
  - apply IH, well_keyed_save, Hwk.
  - destruct (Store.acquire_next iso grace s worker_id now) as [[j s']|] eqn:Ha.
    + pose proof (IH s' (well_keyed_acquire _ _ _ _ _ _ _ Hwk Ha)).
      destruct (run_ops iso grace s' ops). done.
    + by apply IH.
  - apply IH, well_keyed_release, Hwk.
  - apply IH, well_keyed_delete, Hwk.
  - apply IH. exact Hwk.
Qed.

(** Record [x] carries the lease of worker [w] expiring at [e]. *)
Definition leased_by (s : Store.t) (x w : string) (e : Z) : Prop :=
  exists r, s.(Store.jobs) !! x = Some r
            /\ r.(Store.lease_owner) = Some w /\ r.(Store.lease_expires_at) = Some e.

Lemma leased_by_save iso now s j x w e :
  leased_by s x w e -> leased_by (Store.save_job iso now s j) x w e.
Proof.
  intros (r & Hx & Ho & He).
  destruct (decide (j.(Job.id) = x)) as [<-|Hne].
  - unfold leased_by. rewrite save_job_lookup, Hx. by eexists.
  - exists r. unfold Store.save_job, Store.set_jobs; cbn [Store.jobs].
    rewrite (set_updated_at_id j (iso now)), lookup_insert_ne; done.
Qed.

Lemma leased_by_release s y x w e :
  y <> x -> leased_by s x w e -> leased_by (Store.release_job s y) x w e.
Proof.
  intros Hne (r & Hx & Ho & He). unfold Store.release_job.
  destruct (s.(Store.jobs) !! y); [|by exists r].
  exists r. unfold Store.set_jobs; cbn [Store.jobs]. by rewrite lookup_insert_ne.
Qed.

Lemma leased_by_delete s y x w e :
  y <> x -> leased_by s x w e -> leased_by (Store.delete_job s y) x w e.
Proof.
  intros Hne (r & Hx & Ho & He). exists r.
  unfold Store.delete_job, Store.set_jobs; cbn [Store.jobs]. by rewrite lookup_delete_ne.
Qed.

Lemma leased_by_acquire_other iso grace s w' now j s' x w e :
  well_keyed s -> Store.acquire_next iso grace s w' now = Some (j, s') ->
  j.(Job.id) <> x -> leased_by s x w e -> leased_by s' x w e.
Proof.
  intros Hwk Ha Hne (r0 & Hx & Ho & He).
  destruct (acquire_next_spec _ _ _ _ _ _ _ Ha) as (k & r & Hk & _ & -> & ->).
  rewrite (acquired_id _ s k r Hwk Hk) in Hne.
  exists r0. unfold Store.set_jobs; cbn [Store.jobs]. by rewrite lookup_insert_ne.
Qed.

Lemma leased_by_run_ops iso grace s ops s' log x w e :
  well_keyed s -> leased_by s x w e ->
  run_ops iso grace s ops = (s', log) -> x ∉ log ->
  Forall (fun op => op <> OpRelease x /\ op <> OpDelete x) ops ->
  leased_by s' x w e.
Proof.
  revert s log. induction ops as [|op ops IH]; intros s log Hwk Hl Hrun Hlog Hops.
  { simpl in Hrun. by injection Hrun as <- _. }
  apply Forall_cons in Hops as [[Hr Hd] Hops].
  destruct op as [now j|w' now|y|y|c]; simpl in Hrun.
  - apply (IH _ log (well_keyed_save iso now s j Hwk)); [by apply leased_by_save|done..].
  - destruct (Store.acquire_next iso grace s w' now) as [[j s1]|] eqn:Ha.
    + destruct (run_ops iso grace s1 ops) as [s2 log2] eqn:Hrun2.
      injection Hrun as <- <-.
      apply not_elem_of_cons in Hlog as [Hne Hlog].
      apply (IH s1 log2 (well_keyed_acquire _ _ _ _ _ _ _ Hwk Ha));
        [eapply leased_by_acquire_other; eauto | done..].
    + by apply (IH s log).
  - apply (IH _ log (well_keyed_release _ y Hwk));
      [apply leased_by_release; [intros ->; by apply Hr|done] | done..].
  - apply (IH _ log (well_keyed_delete _ y Hwk));
      [apply leased_by_delete; [intros ->; by apply Hd|done] | done..].
  - apply (IH (Store.save_config s c) log); [exact Hwk | exact Hl | done..].
Qed.

(** C3. Consider any interleaving of store operations from an empty store
    (the commits of enqueues, worker iterations and other commands). Let a
    worker acquire job X at time t1, which gives it a lease expiring at
    [t1 + job_timeout + grace]. Let other operations follow, none of them
    a release or deletion of X and none of them another acquisition of X.
    Then an acquisition by any worker at a time t2 before that expiry does
    not return X. *)
Theorem acquire_next_exclusive iso grace cfg pre s0 log0 w t1 j1 s1 mid s2 log w' t2 :
  run_ops iso grace (Store.empty cfg) pre = (s0, log0) ->
  Store.acquire_next iso grace s0 w t1 = Some (j1, s1) ->
  run_ops iso grace s1 mid = (s2, log) ->
  j1.(Job.id) ∉ log ->
  Forall (fun op => op <> OpRelease j1.(Job.id) /\ op <> OpDelete j1.(Job.id)) mid ->
  t2 < t1 + (s0.(Store.config).(Config.job_timeout) + grace) * US_PER_SECOND ->
  forall j2 s3, Store.acquire_next iso grace s2 w' t2 = Some (j2, s3) ->
  j2.(Job.id) <> j1.(Job.id).
Proof.
  intros Hpre Ha1 Hmid Hlog Hops Ht2 j2 s3 Ha2.
  assert (Hwk0 : well_keyed s0).
  { pose proof (well_keyed_run_ops iso grace _ pre (well_keyed_empty cfg)) as H.
    by rewrite Hpre in H. }
  pose proof (well_keyed_acquire _ _ _ _ _ _ _ Hwk0 Ha1) as Hwk1.
  assert (Hwk2 : well_keyed s2).
  { pose proof (well_keyed_run_ops iso grace _ mid Hwk1) as H. by rewrite Hmid in H. }
  set (e := t1 + (s0.(Store.config).(Config.job_timeout) + grace) * US_PER_SECOND) in *.
  assert (Hl1 : leased_by s1 j1.(Job.id) w e).
  { destruct (acquire_next_spec _ _ _ _ _ _ _ Ha1) as (k & r & Hk & _ & Hj & ->).
    assert (Hid : j1.(Job.id) = k) by (rewrite Hj; by apply (acquired_id _ s0 k r)).
    rewrite Hid. eexists. unfold Store.set_jobs; cbn [Store.jobs].
    rewrite lookup_insert_eq. done. }
  destruct (leased_by_run_ops _ _ _ _ _ _ _ _ _ Hwk1 Hl1 Hmid Hlog Hops)
    as (r1 & Hx & Ho & He).
  destruct (acquire_next_spec _ _ _ _ _ _ _ Ha2) as (k & r & Hk & Hel & Hj2 & _).
  rewrite Hj2, (acquired_id _ s2 k r Hwk2 Hk).
  intros ->. rewrite Hx in Hk. injection Hk as <-.
  unfold Store.eligible, Store.lease_live in Hel. rewrite Ho, He in Hel.
  replace (t2 <? e) with true in Hel by lia.
  rewrite andb_false_r in Hel. discriminate.
Qed.

Definition job_a : Job.t := Job.mk "jA" "echo a" JobState.PENDING 0 3 "t0" "t0" None None.
Definition job_b : Job.t := Job.mk "jB" "echo b" JobState.PENDING 0 3 "t1" "t1" None None.

(** Enqueue A then B; worker w1 acquires A at time 10 and later persists
    it; worker w2 acquires at time 12. *)
Definition c3_pre : list store_op := [OpSaveJob 0 job_a; OpSaveJob 1 job_b].
Definition c3_s0 : Store.t := (run_ops pretty 5 (Store.empty Config.default) c3_pre).1.
Definition c3_first : option (Job.t * Store.t) := Store.acquire_next pretty 5 c3_s0 "w1" 10.
Definition c3_j1 : Job.t := match c3_first with Some (j, _) => j | None => job_a end.
Definition c3_s1 : Store.t := match c3_first with Some (_, s) => s | None => c3_s0 end.
Definition c3_mid : list store_op := [OpSaveJob 11 job_a].
Definition c3_s2 : Store.t := (run_ops pretty 5 c3_s1 c3_mid).1.

Lemma acquire_next_exclusive_witness :
  exists j2 s3, Store.acquire_next pretty 5 c3_s2 "w2" 12 = Some (j2, s3)
                /\ j2.(Job.id) <> c3_j1.(Job.id).
Proof.
  destruct (Store.acquire_next pretty 5 c3_s2 "w2" 12) as [[j2 s3]|] eqn:Ha2;
    [|vm_compute in Ha2; discriminate Ha2].
  exists j2, s3. split; [reflexivity|].
  refine (acquire_next_exclusive pretty 5 Config.default c3_pre c3_s0
           (run_ops pretty 5 (Store.empty Config.default) c3_pre).2 "w1" 10 c3_j1 c3_s1
           c3_mid c3_s2 (run_ops pretty 5 c3_s1 c3_mid).2 "w2" 12
           _ _ _ _ _ _ j2 s3 Ha2).
  - apply surjective_pairing.
  - vm_compute. reflexivity.
  - apply surjective_pairing.
  - vm_compute. intros Hin. inversion Hin.
  - repeat constructor; discriminate.
  - vm_compute. reflexivity.
Defined.

(** ** C4: the attempt budget *)

(** I4 of the spec for one record. *)
Definition within_budget (j : Job.t) : Prop :=
  j.(Job.attempts) <= j.(Job.max_retries) + 1.

Definition all_within_budget (s : Store.t) : Prop :=
  forall k r, s.(Store.jobs) !! k = Some r -> within_budget r.(Store.job).

(** The sequence of commits used below: a job with [max_retries = 0] fails
    once (dead, 1 attempt), is put back by [dlq retry] without
    [--reset-attempts], and fails again. *)
Definition c4_trace : list sys_label :=
  [LEnqueue 0 [("id", PStr "j"); ("command", PStr "false"); ("max_retries", PInt 0)];
   LAcquire "w1" 1; LFinish "w1" 2 (Completed 1 "" ""); LRelease "w1";
   LDlqRetry 3 "j" false;
   LAcquire "w2" 4; LFinish "w2" 5 (Completed 1 "" "")].

(** C4 (counterexample). I4 does not hold in every reachable store: after
    [c4_trace] the record of [j] has [attempts = 2] and
    [max_retries = 0]. *)
Lemma attempts_budget_counterexample :
  ~ (forall (ls : list sys_label) (st : sys),
       run_sys pretty 5 (sys_init Config.default) ls = Some st ->
       all_within_budget st.(store)).
Proof.
  intros Hall.
  destruct (run_sys pretty 5 (sys_init Config.default) c4_trace) as [st|] eqn:Hrun;
    [|vm_compute in Hrun; discriminate Hrun].
  specialize (Hall c4_trace st Hrun).
  destruct (st.(store).(Store.jobs) !! "j") as [r|] eqn:Hj;
    [|vm_compute in Hrun; injection Hrun as <-; vm_compute in Hj; discriminate Hj].
  specialize (Hall "j" r Hj). unfold within_budget in Hall.
  vm_compute in Hrun. injection Hrun as <-. vm_compute in Hj. injection Hj as <-.
  vm_compute in Hall. apply Hall. reflexivity.
Qed.

(** The invariant behind I4: budgets are non-negative, every record is
    within budget, and a record that can still be acquired (pending or
    failed) has not spent its budget. *)
Definition job_inv (j : Job.t) : Prop :=
  0 <= j.(Job.max_retries) /\ within_budget j
  /\ ((j.(Job.state) = JobState.PENDING \/ j.(Job.state) = JobState.FAILED) ->
      j.(Job.attempts) <= j.(Job.max_retries)).

Definition store_inv (s : Store.t) : Prop :=
  0 <= s.(Store.config).(Config.max_retries)
  /\ forall k r, s.(Store.jobs) !! k = Some r -> job_inv r.(Store.job).

Definition sys_inv (st : sys) : Prop :=
  store_inv st.(store)
  /\ forall w cfg j, st.(workers) !! w = Some (Running cfg j) ->
       0 <= j.(Job.max_retries) /\ j.(Job.attempts) <= j.(Job.max_retries).

(** The commits the amended I4 allows: enqueues that give no [attempts]
    and no negative [max_retries], and DLQ retries with
    [--reset-attempts]. *)
Definition label_ok (l : sys_label) : bool :=
  match l with
  | LEnqueue _ data =>
      negb (has_key data "attempts")
      && match dict_get data "max_retries" with Some (PInt m) => 0 <=? m | _ => true end
  | LDlqRetry _ _ reset => reset
  | _ => true
  end.

Lemma job_inv_updated j u : job_inv (Job.set_updated_at j u) <-> job_inv j.
Proof. by destruct j. Qed.

Lemma store_inv_save iso now s j :
  store_inv s -> job_inv j -> store_inv (Store.save_job iso now s j).
Proof.
  intros [Hc Hs] Hj. split; [exact Hc|].
  intros k r. unfold Store.save_job, Store.set_jobs; cbn [Store.jobs].
  rewrite lookup_insert. case_decide; [|by apply Hs].
  intros Hr. destruct (s.(Store.jobs) !! _); injection Hr as <-; cbn [Store.job];
    by apply job_inv_updated.
Qed.

Lemma store_inv_release s x : store_inv s -> store_inv (Store.release_job s x).
Proof.
  intros [Hc Hs]. unfold Store.release_job.
  destruct (s.(Store.jobs) !! x) as [r0|] eqn:Hx; [|done].
  split; [exact Hc|]. intros k r. unfold Store.set_jobs; cbn [Store.jobs].
  rewrite lookup_insert. case_decide; [subst k|by apply Hs].
  intros [= <-]. cbn [Store.job]. by apply (Hs x r0).
Qed.

Lemma store_inv_delete s x : store_inv s -> store_inv (Store.delete_job s x).
Proof.
  intros [Hc Hs]. split; [exact Hc|]. intros k r.
  unfold Store.delete_job, Store.set_jobs; cbn [Store.jobs].
  rewrite lookup_delete. case_decide; [done|]. by apply Hs.
Qed.

Lemma store_inv_acquire iso grace s w now j s' :
  store_inv s -> Store.acquire_next iso grace s w now = Some (j, s') ->
  store_inv s' /\ 0 <= j.(Job.max_retries) /\ j.(Job.attempts) <= j.(Job.max_retries).
Proof.
  intros [Hc Hs] Ha.
  destruct (acquire_next_spec _ _ _ _ _ _ _ Ha) as (k & r & Hk & Hel & -> & ->).
  destruct (Hs k r Hk) as (Hm & Hb & Hpf).
  assert (Hle : r.(Store.job).(Job.attempts) <= r.(Store.job).(Job.max_retries)).
  { apply Hpf. unfold Store.eligible in Hel.
    apply andb_true_iff in Hel as [Hst _].
    apply orb_true_iff in Hst as [Hp|Hf].
    - left. by apply String.eqb_eq.
    - right. apply andb_true_iff in Hf as [Hf _]. by apply String.eqb_eq. }
  destruct (Store.job r) as [? ? ? a m ? ? ? ?]; cbn in *.
  split; [|done]. split; [exact Hc|].
  intros k' r'. unfold Store.set_jobs; cbn [Store.jobs].
  rewrite lookup_insert. case_decide; [|by apply Hs].
  intros [= <-]. cbn. split; [done|]. split; [done|].
  intros [Hp|Hp]; discriminate Hp.
Qed.

Lemma handle_job_failure_shape iso cfg now j msg :
  let j' := (handle_job_failure iso cfg now j msg).1 in
  j'.(Job.max_retries) = j.(Job.max_retries) /\ j'.(Job.attempts) = j.(Job.attempts)
  /\ (j'.(Job.state) = JobState.DEAD
      \/ (j'.(Job.state) = JobState.FAILED /\ j.(Job.attempts) < j.(Job.max_retries))).
Proof.
  cbn zeta. unfold handle_job_failure. destruct j as [? ? ? a m ? ? ? ?]; cbn.
  destruct (a >=? m) eqn:Hge; cbn.
  { destruct (int_str_ok a); cbn; auto. }
  assert (a < m) by lia.
  destruct (timedelta_seconds _); cbn; [destruct (datetime_add _ _)|]; cbn; auto.
  destruct (_ && _ && _); cbn; auto.
Qed.

Lemma execute_job_inv iso cfg now j out :
  0 <= j.(Job.max_retries) -> j.(Job.attempts) <= j.(Job.max_retries) ->
  job_inv (execute_job iso cfg now j out).1.
Proof.
  intros Hm Ha.
  assert (Hfail : forall j0 msg,
            j0.(Job.max_retries) = j.(Job.max_retries) ->
            j0.(Job.attempts) = j.(Job.attempts) + 1 ->
            job_inv (handle_job_failure iso cfg now j0 msg).1).
  { intros j0 msg Hm0 Ha0.
    destruct (handle_job_failure_shape iso cfg now j0 msg) as (H1 & H2 & H3).
    unfold job_inv, within_budget. rewrite H1, H2, Hm0, Ha0.
    split; [done|]. split; [lia|].
    intros [Hp|Hp]; destruct H3 as [Hd|[Hf Hlt]]; rewrite ?Hd, ?Hf in Hp;
      try discriminate Hp; lia. }
  unfold execute_job.
  set (j1 := Job.set_attempts j (j.(Job.attempts) + 1)).
  assert (Hm1 : j1.(Job.max_retries) = j.(Job.max_retries)) by (by destruct j).
  assert (Ha1 : j1.(Job.attempts) = j.(Job.attempts) + 1) by (by destruct j).
  destruct out as [rc so se| |e].
  - destruct (rc =? 0).
    + cbn. unfold job_inv, within_budget.
      destruct j; cbn in *. split; [done|]. split; [lia|].
      intros [Hp|Hp]; discriminate Hp.
    + destruct (handle_job_failure iso cfg now j1 _) as [j2 [e|]] eqn:Hh.
      * destruct (handle_job_failure_shape iso cfg now j1
                    (if py_truthy_str se then py_strip se
                     else "Exit code: " +:+ pretty rc)) as (H1 & H2 & _).
        rewrite Hh in H1, H2. cbn in H1, H2.
        apply Hfail; congruence.
      * pose proof (Hfail j1 (if py_truthy_str se then py_strip se
                              else "Exit code: " +:+ pretty rc) Hm1 Ha1) as H.
        by rewrite Hh in H.
  - by apply Hfail.
  - by apply Hfail.
Qed.

Lemma arg_default_int d k def a :
  arg_default d k arg_int def = Ret a ->
  a = match dict_get d k with Some (PInt z) => z | _ => def end.
Proof. unfold arg_default. destruct (dict_get d k) as [[]|]; cbn; congruence. Qed.

(** What [from_dict] reads for [attempts] and [max_retries]. *)
Lemma from_dict_counts now_iso d j :
  from_dict now_iso d = Ret j ->
  j.(Job.attempts) = match dict_get d "attempts" with Some (PInt a) => a | _ => 0 end
  /\ j.(Job.max_retries) = match dict_get d "max_retries" with Some (PInt m) => m | _ => 3 end.
Proof.
  unfold from_dict. intros H.
  destruct (List.find _ d) as [[k v]|]; [discriminate H|].
  cbn [List.filter negb] in H.
  destruct (has_key d "id"); cbn [negb] in H;
    destruct (has_key d "command"); cbn [negb] in H; try discriminate H.
  py_bind_inv H. injection H as <-. cbn [Job.attempts Job.max_retries].
  apply arg_default_int in E2, E3. by split.
Qed.

Lemma dict_get_set_eq d k v : dict_get (dict_set d k v) k = Some v.
Proof.
  induction d as [|[k1 v1] d IH]; cbn.
  - by rewrite String.eqb_refl.
  - destruct (String.eqb_spec k k1) as [->|Hk]; cbn.
    + by rewrite String.eqb_refl.
    + destruct (String.eqb_spec k k1); [congruence|done].
Qed.

Lemma store_inv_enqueue iso now s data :
  label_ok (LEnqueue now data) = true -> store_inv s ->
  store_inv (enqueue iso now s data).2.
Proof.
  intros Hok Hinv.
  destruct (enqueue iso now s data) as [code s'] eqn:He. cbn.
  destruct (enqueue_ok_inv _ _ _ _ _ _ He) as [[_ ->]|[_ (j & Hf & _ & ->)]];
    [done|].
  apply store_inv_save; [done|].
  cbn in Hok. apply andb_true_iff in Hok as [Hna Hmr].
  apply from_dict_counts in Hf as [Hat Hm].
  rewrite dict_get_max_retries_default in Hat by done.
  unfold has_key in Hna. destruct (dict_get data "attempts"); [discriminate Hna|].
  unfold job_inv, within_budget. rewrite Hat.
  assert (0 <= j.(Job.max_retries)); [|split; [done|]; split; [lia|]; intros _; lia].
  rewrite Hm. destruct Hinv as [Hc _].
  destruct (has_key data "max_retries") eqn:Hk.
  - destruct (dict_get data "max_retries") as [[]|]; try lia; by apply Z.leb_le.
  - rewrite dict_get_set_eq. exact Hc.
Qed.

Lemma store_inv_dlq_retry iso now s x :
  store_inv s -> store_inv (dlq_retry iso now s x true).2.
Proof.
  intros Hinv. unfold dlq_retry.
  destruct (Store.get_job s x) as [j|] eqn:Hg; [|done].
  destruct (negb _); [done|]. cbn.
  apply store_inv_save; [done|].
  unfold Store.get_job in Hg.
  destruct (s.(Store.jobs) !! x) as [r|] eqn:Hx; [|discriminate Hg].
  injection Hg as <-. destruct (proj2 Hinv x r Hx) as [Hm _].
  destruct (Store.job r); cbn in *. split; [done|]. unfold within_budget; cbn.
  split; [lia|]. intros _. lia.
Qed.

Lemma sys_inv_workers_insert st s w ph :
  sys_inv st -> store_inv s ->
  (forall cfg j, ph = Running cfg j ->
     0 <= j.(Job.max_retries) /\ j.(Job.attempts) <= j.(Job.max_retries)) ->
  sys_inv (mk_sys s (<[w := ph]> st.(workers))).
Proof.
  intros [_ Hw] Hs Hph. split; [exact Hs|]. intros w' cfg j. cbn [workers].
  rewrite lookup_insert. case_decide; [intros [= Heq]; by apply (Hph cfg j)|].
  apply Hw.
Qed.

Lemma sys_inv_workers_delete st s w :
  sys_inv st -> store_inv s -> sys_inv (mk_sys s (delete w st.(workers))).
Proof.
  intros [_ Hw] Hs. split; [exact Hs|]. intros w' cfg j. cbn [workers].
  rewrite lookup_delete. case_decide; [done|]. apply Hw.
Qed.

Lemma sys_inv_step iso grace st l st' :
  label_ok l = true -> sys_inv st -> sys_step iso grace st l = Some st' -> sys_inv st'.
Proof.
  intros Hok Hinv Hst. pose proof Hinv as [Hs Hw].
  destruct l as [now data|w now|w now out|w|w|now x reset|x]; cbn in Hst.
  - injection Hst as <-. split; [|exact Hw]. by apply store_inv_enqueue.
  - destruct (st.(workers) !! w); [discriminate Hst|].
    destruct (Store.acquire_next iso grace _ w now) as [[j s']|] eqn:Ha;
      [|by injection Hst as <-].
    injection Hst as <-.
    destruct (store_inv_acquire _ _ _ _ _ _ _ Hs Ha) as (Hs' & Hm & Hle).
    apply sys_inv_workers_insert; [done..|]. by intros ? ? [= _ <-].
  - destruct (st.(workers) !! w) as [[cfg j|]|] eqn:Hwk; try discriminate Hst.
    injection Hst as <-. destruct (Hw w cfg j Hwk) as [Hm Hle].
    apply sys_inv_workers_insert; [done| |done].
    apply store_inv_save; [done|]. by apply execute_job_inv.
  - destruct (st.(workers) !! w) as [[|x]|]; try discriminate Hst.
    injection Hst as <-. apply sys_inv_workers_delete; [done|].
    by apply store_inv_release.
  - injection Hst as <-. by apply sys_inv_workers_delete.
  - injection Hst as <-. cbn in Hok. subst reset. split; [|exact Hw].
    by apply store_inv_dlq_retry.
  - injection Hst as <-. split; [|exact Hw]. by apply store_inv_delete.
Qed.

Lemma sys_inv_run iso grace ls : forall st st',
  Forall (fun l => label_ok l = true) ls -> sys_inv st ->
  run_sys iso grace st ls = Some st' -> sys_inv st'.
Proof.
  induction ls as [|l ls IH]; intros st st' Hok Hinv Hrun; cbn in Hrun.
  - by injection Hrun as <-.
  - inversion Hok as [|? ? Hl Hls]; subst.
    destruct (sys_step iso grace st l) as [st1|] eqn:Hst; [|discriminate Hrun].
    exact (IH st1 st' Hls (sys_inv_step _ _ _ _ _ Hl Hinv Hst) Hrun).
Qed.

Lemma sys_inv_init cfg : 0 <= cfg.(Config.max_retries) -> sys_inv (sys_init cfg).
Proof.
  intros Hc. split; [split; [exact Hc|]|]; intros *; cbn; by rewrite lookup_empty.
Qed.

(** C4 (amended). In every run of the system from an empty store whose
    configured [max_retries] is non-negative, where no enqueue supplies
    [attempts] or a negative [max_retries] and every DLQ retry resets the
    attempts, every stored record satisfies [attempts <= max_retries + 1]
    after every commit. *)
Theorem attempts_budget_with_reset iso grace cfg ls st :
  0 <= cfg.(Config.max_retries) ->
  Forall (fun l => label_ok l = true) ls ->
  run_sys iso grace (sys_init cfg) ls = Some st ->
  all_within_budget st.(store).
Proof.
  intros Hc Hok Hrun k r Hk.
  destruct (sys_inv_run _ _ _ _ _ Hok (sys_inv_init cfg Hc) Hrun) as [[_ Hs] _].
  by destruct (Hs k r Hk) as (_ & Hb & _).
Qed.

Definition c4_reset_trace : list sys_label :=
  [LEnqueue 0 [("id", PStr "j"); ("command", PStr "false"); ("max_retries", PInt 0)];
   LAcquire "w1" 1; LFinish "w1" 2 (Completed 1 "" ""); LRelease "w1";
   LDlqRetry 3 "j" true;
   LAcquire "w2" 4; LFinish "w2" 5 (Completed 1 "" ""); LRelease "w2"].

Lemma attempts_budget_with_reset_witness :
  exists st, run_sys pretty 5 (sys_init Config.default) c4_reset_trace = Some st
             /\ all_within_budget st.(store).
Proof.
  eexists. split; [vm_compute; reflexivity|].
  refine (attempts_budget_with_reset pretty 5 Config.default c4_reset_trace _ _ _ _).
  - vm_compute. discriminate.
  - repeat constructor.
  - vm_compute. reflexivity.
Defined.

(** ** C10: dictionary and JSON round trip *)

Local Arguments String.append : simpl nomatch.

Lemma string_app_assoc (a b c : string) : (a +:+ b) +:+ c = a +:+ (b +:+ c).
Proof. induction a as [|x a IH]; [done|]. exact (f_equal (String x) IH). Qed.

Lemma string_app_length (a b : string) :
  String.length (a +:+ b) = (String.length a + String.length b)%nat.
Proof. induction a as [|x a IH]; [done|]. exact (f_equal S IH). Qed.

Lemma string_app_cons x (a b : string) : String x a +:+ b = String x (a +:+ b).
Proof. done. Qed.

Lemma scanstring_escape_char c r :
  scanstring (json_escape_char c +:+ r) = scan_cons c (scanstring r).
Proof. destruct c as [[] [] [] [] [] [] [] []]; reflexivity. Qed.

Lemma scanstring_escape s r :
  scanstring (json_escape s +:+ String "034"%char r) = Some (s, r).
Proof.
  induction s as [|c s IH]; [done|].
  change (json_escape (String c s)) with (json_escape_char c +:+ json_escape s).
  by rewrite string_app_assoc, scanstring_escape_char, IH.
Qed.

Lemma pretty_N_char_digit d : (d < 10)%N ->
  is_digit (pretty_N_char d) = true /\ digit_val (pretty_N_char d) = Z.of_N d
  /\ Ascii.eqb (pretty_N_char d) "0" = (d =? 0)%N.
Proof.
  intros Hd.
  assert (d = 0 \/ d = 1 \/ d = 2 \/ d = 3 \/ d = 4 \/ d = 5 \/ d = 6
          \/ d = 7 \/ d = 8 \/ d = 9)%N as Hc by lia.
  repeat destruct Hc as [->|Hc]; [..|subst d]; done.
Qed.

Lemma scan_digits_pretty_N x : forall acc s,
  exists m, scan_digits acc (pretty_N_go x s) = scan_digits (acc * m + Z.of_N x) s.
Proof.
  induction (N.lt_wf_0 x) as [x _ IH]; intros acc s.
  destruct (decide (x = 0%N)) as [->|Hx].
  - exists 1. rewrite pretty_N_go_0. f_equal. lia.
  - rewrite pretty_N_go_step by lia.
    destruct (IH (x `div` 10)%N (N.div_lt x 10 ltac:(lia) ltac:(lia)) acc
                 (String (pretty_N_char (x `mod` 10)) s)) as [m Hm].
    rewrite Hm.
    destruct (pretty_N_char_digit (x `mod` 10)) as (Hd & Hv & _);
      [apply N.mod_lt; lia|].
    exists (10 * m). cbn [scan_digits]. rewrite Hd, Hv. f_equal.
    pose proof (N.div_mod x 10 ltac:(lia)) as E.
    apply (f_equal Z.of_N) in E. rewrite N2Z.inj_add, N2Z.inj_mul in E. nia.
Qed.

Lemma pretty_N_go_app x : forall s1 s2, pretty_N_go x (s1 +:+ s2) = pretty_N_go x s1 +:+ s2.
Proof.
  induction (N.lt_wf_0 x) as [x _ IH]; intros s1 s2.
  destruct (decide (x = 0%N)) as [->|Hx]; [by rewrite !pretty_N_go_0|].
  rewrite !(pretty_N_go_step x) by lia.
  exact (IH _ (N.div_lt x 10 ltac:(lia) ltac:(lia)) (String _ s1) s2).
Qed.

Lemma pretty_N_go_head x s : (0 < x)%N ->
  exists c r, pretty_N_go x s = String c r /\ is_digit c = true /\ Ascii.eqb c "0" = false.
Proof.
  revert s. induction (N.lt_wf_0 x) as [x _ IH]; intros s Hx.
  rewrite pretty_N_go_step by lia.
  destruct (decide (x `div` 10 = 0)%N) as [Hq|Hq].
  - rewrite Hq, pretty_N_go_0. eexists _, s. split; [done|].
    destruct (pretty_N_char_digit (x `mod` 10)) as (Hd & _ & H0);
      [apply N.mod_lt; lia|].
    split; [done|]. rewrite H0. apply N.eqb_neq.
    pose proof (N.div_mod x 10 ltac:(lia)) as E. rewrite Hq in E.
    intros E0. rewrite E0 in E. lia.
  - apply IH; [apply N.div_lt; [exact Hx|reflexivity]|].
    destruct (x `div` 10)%N; [done|reflexivity].
Qed.

Lemma pretty_Z_pos p : pretty (Zpos p) = pretty_N_go (Npos p) "".
Proof. cbv [pretty pretty_Z pretty_positive pretty_N]. by case_decide. Qed.

(** *** The digit limit of [str(int)] *)

Lemma pretty_N_go_length x : forall s,
  exists k, 0 <= k /\ String.length (pretty_N_go x s) = (Z.to_nat k + String.length s)%nat
  /\ (x = 0%N -> k = 0) /\ Z.of_N x < 10 ^ k
  /\ ((0 < x)%N -> 10 ^ (k - 1) <= Z.of_N x).
Proof.
  induction (N.lt_wf_0 x) as [x _ IH]; intros s.
  destruct (decide (x = 0%N)) as [->|Hx].
  - exists 0. rewrite pretty_N_go_0. split; [lia|]. split; [done|].
    split; [done|]. split; [cbn; lia|lia].
  - rewrite pretty_N_go_step by lia.
    destruct (IH (x `div` 10)%N (N.div_lt x 10 ltac:(lia) ltac:(lia))
                 (String (pretty_N_char (x `mod` 10)) s)) as (k & Hk0 & Hlen & Hkz & Hlt & Hge).
    exists (k + 1). rewrite Hlen. cbn [String.length].
    pose proof (N.div_mod x 10 ltac:(lia)) as E.
    pose proof (N.mod_lt x 10 ltac:(lia)) as Emod.
    apply (f_equal Z.of_N) in E. rewrite N2Z.inj_add, N2Z.inj_mul in E.
    change (Z.of_N 10) with 10 in E.
    assert (Emod' : Z.of_N (x `mod` 10) < 10) by lia.
    rewrite Z.pow_add_r by lia. cbn [Z.pow Z.pow_pos Pos.iter].
    split; [lia|]. split; [rewrite Z2Nat.inj_add by lia; cbn; lia|].
    split; [lia|]. split; [nia|].
    intros _. replace (k + 1 - 1) with k by lia.
    destruct (decide (x `div` 10 = 0)%N) as [Hq|Hq].
    + rewrite (Hkz Hq). cbn. lia.
    + assert (Hk1 : 1 <= k).
      { destruct (Z.eq_dec k 0) as [->|]; [|lia]. cbn in Hlt. lia. }
      specialize (Hge ltac:(lia)).
      replace k with (k - 1 + 1) at 1 by lia. rewrite Z.pow_add_r, Z.pow_1_r by lia.
      pose proof (N2Z.is_nonneg (x `mod` 10)) as Hr. rewrite E.
      revert Hge Hr. generalize (10 ^ (k - 1)) (Z.of_N (x `div` 10)) (Z.of_N (x `mod` 10)).
      intros. lia.
Qed.

(** [str(abs(z))] has [k] digits, with [10^(k-1) <= abs(z) < 10^k]. *)
Lemma length_pretty_abs z :
  exists k, 1 <= k /\ String.length (pretty (Z.abs z)) = Z.to_nat k
  /\ Z.abs z < 10 ^ k /\ (z <> 0 -> 10 ^ (k - 1) <= Z.abs z).
Proof.
  destruct z as [|p|p].
  - exists 1. split; [lia|]. split; [reflexivity|]. split; [cbn; lia|done].
  - change (Z.abs (Zpos p)) with (Zpos p). rewrite pretty_Z_pos.
    destruct (pretty_N_go_length (Npos p) "") as (k & Hk0 & Hlen & _ & Hlt & Hge).
    assert (Hk1 : 1 <= k).
    { destruct (Z.eq_dec k 0) as [->|]; [|lia]. cbn in Hlt. lia. }
    exists k. rewrite Hlen. cbn [String.length]. split; [done|].
    split; [lia|]. split; [exact Hlt|]. intros _. apply Hge. lia.
  - change (Z.abs (Zneg p)) with (Zpos p). rewrite pretty_Z_pos.
    destruct (pretty_N_go_length (Npos p) "") as (k & Hk0 & Hlen & _ & Hlt & Hge).
    assert (Hk1 : 1 <= k).
    { destruct (Z.eq_dec k 0) as [->|]; [|lia]. cbn in Hlt. lia. }
    exists k. rewrite Hlen. cbn [String.length]. split; [done|].
    split; [lia|]. split; [exact Hlt|]. intros _. apply Hge. lia.
Qed.

Lemma pretty_abs_length_le z n : (1 <= n)%nat ->
  (String.length (pretty (Z.abs z)) <= n)%nat <-> Z.abs z < 10 ^ Z.of_nat n.
Proof.
  intros Hn. destruct (length_pretty_abs z) as (k & Hk1 & Hlen & Hlt & Hge).
  rewrite Hlen. split.
  - intros Hkn. eapply Z.lt_le_trans; [exact Hlt|].
    apply Z.pow_le_mono_r; lia.
  - intros Hz. destruct (Z.eq_dec z 0) as [->|Hz0].
    + change (String.length (pretty (Z.abs 0))) with 1%nat in Hlen. lia.
    + specialize (Hge Hz0).
      assert (k - 1 < Z.of_nat n); [|lia].
      apply (Z.pow_lt_mono_r_iff 10); lia.
Qed.

(** [int_str_ok z] holds exactly when [abs(z) < 10^4300]. *)
Lemma int_str_ok_iff z : int_str_ok z = true <-> Z.abs z < 10 ^ 4300.
Proof.
  unfold int_str_ok. rewrite Nat.leb_le.
  exact (pretty_abs_length_le z PY_INT_MAX_STR_DIGITS ltac:(cbv; lia)).
Qed.

Lemma int_str_ok_false z : int_str_ok z = false <-> ~ Z.abs z < 10 ^ 4300.
Proof.
  rewrite <- int_str_ok_iff. destruct (int_str_ok z); split; congruence.
Qed.

Lemma int_str_ok_small z : Z.abs z < 10 ^ 12 -> int_str_ok z = true.
Proof.
  intros H. apply int_str_ok_iff. eapply Z.lt_le_trans; [exact H|].
  apply Z.pow_le_mono_r; lia.
Qed.


(** The texts that follow a value in [json_dumps_indent2]. *)
Definition value_end (s : string) : bool :=
  match s with
  | String c _ => Ascii.eqb c "," || Ascii.eqb c "010"
  | EmptyString => false
  end.

Lemma value_end_stop n Y : value_end Y = true ->
  scan_digits n Y = (n, Y) /\ float_tail Y = false.
Proof.
  destruct Y as [|c Y]; [discriminate|].
  destruct c as [[] [] [] [] [] [] [] []]; cbn; intros H; try discriminate H; done.
Qed.

Lemma digit_head c : (is_digit c || Ascii.eqb c "-") = true ->
  json_ws c = false /\ Ascii.eqb c "034"%char = false /\ Ascii.eqb c "n" = false.
Proof.
  destruct c as [[] [] [] [] [] [] [] []]; cbn; intros H; try discriminate H; done.
Qed.

Lemma digit_not_dash c : is_digit c = true -> Ascii.eqb c "-" = false.
Proof.
  destruct c as [[] [] [] [] [] [] [] []]; cbn; intros H; try discriminate H; done.
Qed.

Lemma scan_int_pretty_N x Y : (0 < x)%N -> value_end Y = true ->
  exists c r, pretty_N_go x Y = String c r /\ is_digit c = true
  /\ scan_digits (digit_val c) r = (Z.of_N x, Y).
Proof.
  intros Hx HY.
  destruct (pretty_N_go_head x Y Hx) as (c & r & Hcr & Hd & _).
  exists c, r. split; [done|]. split; [done|].
  destruct (scan_digits_pretty_N x 0 Y) as [m Hm].
  rewrite Hcr in Hm. cbn [scan_digits] in Hm. rewrite Hd in Hm.
  replace (10 * 0 + digit_val c) with (digit_val c) in Hm by lia.
  rewrite Hm. replace (0 * m + Z.of_N x) with (Z.of_N x) by lia.
  by apply value_end_stop.
Qed.

Lemma pretty_Z_scan z Y : int_str_ok z = true -> value_end Y = true ->
  exists c r, pretty z +:+ Y = String c r /\ (is_digit c || Ascii.eqb c "-") = true
  /\ scan_int (pretty z +:+ Y) = Some (z, Y).
Proof.
  intros Hok HY. destruct (value_end_stop 0 Y HY) as [_ Hft].
  destruct z as [|p|p].
  - eexists _, Y. split; [done|]. split; [done|].
    unfold scan_int. cbn -[PY_INT_MAX_STR_DIGITS]. rewrite Hft.
    replace (S (String.length Y) - String.length Y)%nat with 1%nat by lia. done.
  - unfold int_str_ok in Hok. change (Z.abs (Zpos p)) with (Zpos p) in Hok.
    rewrite pretty_Z_pos in Hok. apply Nat.leb_le in Hok.
    rewrite pretty_Z_pos, <- (pretty_N_go_app _ "" Y).
    change ("" +:+ Y) with Y.
    assert (Hl : (String.length (pretty_N_go (Npos p) Y) - String.length Y
                  = String.length (pretty_N_go (Npos p) ""))%nat).
    { change Y with ("" +:+ Y) at 1. rewrite pretty_N_go_app, string_app_length. cbn [String.length]. lia. }
    destruct (scan_int_pretty_N (Npos p) Y ltac:(lia) HY) as (c & r & Hcr & Hd & Hs).
    rewrite Hcr in Hl |- *. exists c, r. split; [done|]. rewrite Hd. split; [done|].
    destruct (pretty_N_go_head (Npos p) Y ltac:(lia)) as (c' & r' & Hcr' & _ & H0).
    rewrite Hcr in Hcr'. injection Hcr' as <- <-.
    unfold scan_int. rewrite (digit_not_dash c Hd). cbv beta iota.
    rewrite H0, Hd, Hs, Hft. cbv beta iota.
    rewrite Hl. apply Nat.ltb_ge in Hok. by rewrite Hok.
  - unfold int_str_ok in Hok. change (Z.abs (Zneg p)) with (Zpos p) in Hok.
    rewrite pretty_Z_pos in Hok. apply Nat.leb_le in Hok.
    change (pretty (Zneg p)) with ("-" +:+ pretty (Zpos p)).
    rewrite pretty_Z_pos, string_app_assoc, <- (pretty_N_go_app _ "" Y).
    change ("" +:+ Y) with Y.
    assert (Hl : (String.length (pretty_N_go (Npos p) Y) - String.length Y
                  = String.length (pretty_N_go (Npos p) ""))%nat).
    { change Y with ("" +:+ Y) at 1. rewrite pretty_N_go_app, string_app_length. cbn [String.length]. lia. }
    destruct (scan_int_pretty_N (Npos p) Y ltac:(lia) HY) as (c & r & Hcr & Hd & Hs).
    eexists _, _. split; [done|]. split; [done|].
    destruct (pretty_N_go_head (Npos p) Y ltac:(lia)) as (c' & r' & Hcr' & _ & H0).
    rewrite Hcr in Hcr'. injection Hcr' as <- <-.
    rewrite Hcr in Hl |- *. change ("-" +:+ String c r) with (String "-" (String c r)).
    unfold scan_int. cbv beta iota.
    change (Ascii.eqb "-" "-") with true. cbv beta iota.
    rewrite H0, Hd, Hs, Hft. cbv beta iota.
    rewrite Hl. apply Nat.ltb_ge in Hok. by rewrite Hok.
Qed.

Lemma scan_value_encode v ev Y : json_encode_value v = Ret ev -> value_end Y = true ->
  skip_ws (ev +:+ Y) = ev +:+ Y /\ scan_value (ev +:+ Y) = Some (v, Y).
Proof.
  intros He HY. destruct v as [s|z| |]; cbn in He; try discriminate He.
  - injection He as <-.
    unfold encode_basestring_ascii. rewrite string_app_cons, string_app_assoc.
    split; [done|]. cbn. by rewrite scanstring_escape.
  - destruct (int_str_ok z) eqn:Hok; [injection He as <-|discriminate He].
    destruct (pretty_Z_scan z Y Hok HY) as (c & r & Hcr & Hd & Hs).
    rewrite Hcr in Hs |- *. destruct (digit_head c Hd) as (Hw & Hq & Hn).
    cbn. rewrite Hw. split; [done|]. by rewrite Hq, Hn, Hs.
  - injection He as <-. done.
Qed.

Lemma iterencode_items_cons_inv b k v rest s :
  iterencode_items b ((k, v) :: rest) = Ret s ->
  exists ev er, json_encode_value v = Ret ev /\ iterencode_items false rest = Ret er
  /\ s = (if b then EmptyString else item_separator)
         +:+ encode_basestring_ascii k +:+ key_separator +:+ ev +:+ er.
Proof.
  cbn [iterencode_items]. destruct (json_encode_value v) as [ev|]; [|discriminate].
  cbn [py_bind]. destruct (iterencode_items false rest) as [er|]; [|discriminate].
  intros [= <-]. by exists ev, er.
Qed.

(** One member: the key, the separator and the value are read, then the
    loop looks at what follows. *)
Lemma scan_members_step fuel acc k v ev R :
  json_encode_value v = Ret ev -> value_end R = true ->
  scan_members (S fuel) acc (json_escape k +:+ String "034"%char (key_separator +:+ ev +:+ R)) =
  match skip_ws R with
  | String "}"%char s4 => Some (acc ++ [(k, v)], s4)
  | String ","%char s4 =>
      match skip_ws s4 with
      | String c s5 =>
          if Ascii.eqb c "034"%char then scan_members fuel (acc ++ [(k, v)]) s5 else None
      | EmptyString => None
      end
  | _ => None
  end.
Proof.
  intros Hv HR. destruct (scan_value_encode v ev R Hv HR) as [Hw Hs].
  cbn [scan_members]. rewrite scanstring_escape. cbn. by rewrite Hw, Hs.
Qed.

Lemma skip_item_separator k W :
  skip_ws (item_separator +:+ encode_basestring_ascii k +:+ W)
  = String ","%char (newline_indent +:+ encode_basestring_ascii k +:+ W).
Proof. reflexivity. Qed.

Lemma skip_newline_indent k W :
  skip_ws (newline_indent +:+ encode_basestring_ascii k +:+ W)
  = String "034"%char (json_escape k +:+ String "034"%char W).
Proof.
  unfold encode_basestring_ascii.
  rewrite (string_app_cons _ (json_escape k +:+ _) W), string_app_assoc.
  reflexivity.
Qed.

Lemma scan_members_items rest : forall k v acc fuel t ev er,
  json_encode_value v = Ret ev -> iterencode_items false rest = Ret er ->
  (length rest < fuel)%nat ->
  scan_members fuel acc
    (json_escape k +:+ String "034"%char
       (key_separator +:+ ev +:+ er +:+ String "010"%char (String "}"%char t)))
  = Some (acc ++ (k, v) :: rest, t).
Proof.
  induction rest as [|[k' v'] rest IH];
    intros k v acc fuel t ev er Hv Her Hf; (destruct fuel as [|fuel]; [cbn in Hf; lia|]).
  - cbn in Her. injection Her as <-.
    by rewrite (scan_members_step fuel acc k v ev
                  (EmptyString +:+ String "010"%char (String "}"%char t)) Hv eq_refl).
  - destruct (iterencode_items_cons_inv false k' v' rest er Her)
      as (ev' & er' & Hv' & Her' & ->).
    rewrite !string_app_assoc.
    rewrite (scan_members_step fuel acc k v ev
               (item_separator +:+ encode_basestring_ascii k' +:+ key_separator +:+ ev'
                +:+ er' +:+ String "010"%char (String "}"%char t)) Hv eq_refl).
    rewrite skip_item_separator. cbv beta iota.
    rewrite skip_newline_indent, Ascii.eqb_refl. cbv beta iota.
    rewrite (IH k' v' (acc ++ [(k, v)]) fuel t ev' er' Hv' Her') by (cbn in Hf; lia).
    by rewrite <- app_assoc.
Qed.

Lemma iterencode_items_length b d s :
  iterencode_items b d = Ret s -> (length d <= String.length s)%nat.
Proof.
  revert b s. induction d as [|[k v] d IH]; intros b s Hs; [cbn; lia|].
  destruct (iterencode_items_cons_inv b k v d s Hs) as (ev & er & _ & Her & ->).
  specialize (IH false er Her).
  rewrite !string_app_length. unfold encode_basestring_ascii.
  cbn [List.length String.length]. lia.
Qed.



Lemma to_json_int_limit j :
  int_str_ok j.(Job.attempts) = false \/ int_str_ok j.(Job.max_retries) = false ->
  exists e, to_json j = Raise e.
Proof.
  destruct j as [? ? ? a m ? ? ? ?]; cbn [Job.attempts Job.max_retries].
  unfold to_json, to_dict, json_dumps_indent2.
  cbn [iterencode_items json_encode_value Job.attempts Job.max_retries].
  intros H. destruct (int_str_ok a) eqn:Ha.
  - destruct H as [H|H]; [discriminate H|]. rewrite H. eexists. reflexivity.
  - eexists. reflexivity.
Qed.

Lemma to_json_int_ok j :
  int_str_ok j.(Job.attempts) = true -> int_str_ok j.(Job.max_retries) = true ->
  exists s, json_dumps_indent2 (to_dict j) = Ret s.
Proof.
  destruct j as [? ? ? a m ? ? n e]; cbn [Job.attempts Job.max_retries]. intros Ha Hm.
  unfold to_dict, json_dumps_indent2.
  cbn [iterencode_items json_encode_value Job.attempts Job.max_retries].
  rewrite Ha, Hm. destruct n, e; cbn; by eexists.
Qed.





(* ================================================================== *)
(** * Further properties of the worker and the CLI commands *)

(** ** Worker: when an attempt raises *)

Lemma handle_job_failure_budget_left iso cfg now job msg :
  0 <= now <= DATETIME_MAX_US -> job.(Job.attempts) < job.(Job.max_retries) ->
  let r := now + backoff_delay job.(Job.attempts) cfg.(Config.backoff_base) * US_PER_SECOND in
  let j1 := Job.set_state (Job.set_error_message job (Some msg)) JobState.FAILED in
  (0 <= r <= DATETIME_MAX_US ->
     handle_job_failure iso cfg now job msg
     = (Job.set_next_retry_at j1 (Some (iso r)),
        if int_str_ok job.(Job.attempts) && int_str_ok job.(Job.max_retries) then None
        else Some INT_STR_LIMIT_MSG))
  /\ (~ (0 <= r <= DATETIME_MAX_US) ->
      exists e, handle_job_failure iso cfg now job msg = (j1, Some e)).
Proof.
  intros Hnow Hlt r j1. unfold r, j1, handle_job_failure.
  destruct job as [i c st a m ca ua nr em]; cbn in *.
  replace (a >=? m) with false by lia.
  set (b := backoff_delay a cfg.(Config.backoff_base)).
  assert (Hb : 0 <= now + b * US_PER_SECOND <= DATETIME_MAX_US -> int_str_ok b = true).
  { intros Hr. apply int_str_ok_small. change (10 ^ 12) with 1000000000000.
    unfold US_PER_SECOND, DATETIME_MAX_US in *. lia. }
  unfold timedelta_seconds, datetime_add, SECONDS_PER_DAY, US_PER_SECOND, DATETIME_MAX_US in *.
  rewrite !Z.gtb_ltb.
  split.
  - intros Hr. rewrite (Hb Hr), andb_true_r.
    assert (Hd : -3652060 <= b / 86400 <= 3652060).
    { split; [apply Z.div_le_lower_bound|apply Z.div_le_upper_bound]; lia. }
    destruct (Z.ltb_spec 2147483647 (b / 86400)); [lia|].
    destruct (Z.ltb_spec (b / 86400) (-2147483648)); [lia|].
    destruct (Z.ltb_spec 999999999 (Z.abs (b / 86400))); [lia|].
    cbn [orb].
    destruct (Z.ltb_spec (now + b * 1000000) 0); [lia|].
    destruct (Z.ltb_spec 315537897599999999 (now + b * 1000000)); [lia|].
    cbn [orb]. by destruct (int_str_ok a && int_str_ok m).
  - intros Hr.
    destruct ((2147483647 <? b / 86400) || (b / 86400 <? -2147483648)); [by eexists|].
    destruct (999999999 <? Z.abs (b / 86400)); [by eexists|].
    cbn [orb].
    destruct (Z.ltb_spec (now + b * 1000000) 0); [by eexists|].
    destruct (Z.ltb_spec 315537897599999999 (now + b * 1000000)); [by eexists|].
    lia.
Qed.

(** X1: [Worker._handle_job_failure] with retry budget left, a
    non-negative attempt count and a clock [now] within datetime's range:
    nothing is raised exactly when the retry date
    [now + backoff_base ^ attempts] seconds falls within that range and
    [attempts] and [max_retries] have at most 4300 decimal digits (below
    [10^4300] in absolute value), so that the progress message can print
    them. In every case the job is [failed] and carries the message; the
    retry date is set exactly when it is within range. *)
Theorem handle_job_failure_raises_iff iso cfg now job msg :
  0 <= now <= DATETIME_MAX_US -> 0 <= job.(Job.attempts) ->
  job.(Job.attempts) < job.(Job.max_retries) ->
  let r := now + backoff_delay job.(Job.attempts) cfg.(Config.backoff_base) * US_PER_SECOND in
  let j1 := Job.set_state (Job.set_error_message job (Some msg)) JobState.FAILED in
  ((handle_job_failure iso cfg now job msg).2 = None
   <-> 0 <= r <= DATETIME_MAX_US
       /\ Z.abs job.(Job.attempts) < 10 ^ 4300 /\ Z.abs job.(Job.max_retries) < 10 ^ 4300)
  /\ (handle_job_failure iso cfg now job msg).1
     = (if (0 <=? r) && (r <=? DATETIME_MAX_US) then Job.set_next_retry_at j1 (Some (iso r))
        else j1).
Proof.
  intros Hnow Ha0 Hlt r j1.
  destruct (handle_job_failure_budget_left iso cfg now job msg Hnow Hlt) as [Hin Hout].
  fold r j1 in Hin, Hout.
  destruct (decide (0 <= r <= DATETIME_MAX_US)) as [Hr|Hr].
  - rewrite (Hin Hr). cbn. split.
    + rewrite <- !int_str_ok_iff.
      destruct (int_str_ok (Job.attempts job)), (int_str_ok (Job.max_retries job)); cbn;
        split; try done; intros (_ & ? & ?); congruence.
    + by replace ((0 <=? r) && (r <=? DATETIME_MAX_US)) with true by lia.
  - destruct (Hout Hr) as [e ->]. cbn. split; [split; [done|tauto]|].
    by replace ((0 <=? r) && (r <=? DATETIME_MAX_US)) with false by lia.
Qed.

(** A pending job with two retries left. *)
Definition retry_job : Job.t :=
  Job.mk "r1" "false" JobState.PENDING 0 3 "t0" "t0" None None.

Lemma handle_job_failure_raises_iff_witness :
  0 <= 0 <= DATETIME_MAX_US /\ 0 <= Job.attempts retry_job
  /\ Job.attempts retry_job < Job.max_retries retry_job
  /\ ((handle_job_failure pretty Config.default 0 retry_job "boom").2 = None
      <-> 0 <= 0 + backoff_delay (Job.attempts retry_job) 2 * US_PER_SECOND <= DATETIME_MAX_US
          /\ Z.abs (Job.attempts retry_job) < 10 ^ 4300
          /\ Z.abs (Job.max_retries retry_job) < 10 ^ 4300).
Proof.
  split; [vm_compute; split; discriminate|].
  split; [vm_compute; discriminate|]. split; [vm_compute; reflexivity|].
  exact (proj1 (handle_job_failure_raises_iff pretty Config.default 0 retry_job "boom"
                  ltac:(vm_compute; split; discriminate) ltac:(vm_compute; discriminate)
                  ltac:(vm_compute; reflexivity))).
Defined.

Lemma handle_job_failure_fields iso cfg now job msg :
  let j' := (handle_job_failure iso cfg now job msg).1 in
  j'.(Job.id) = job.(Job.id) /\ j'.(Job.command) = job.(Job.command)
  /\ j'.(Job.attempts) = job.(Job.attempts) /\ j'.(Job.max_retries) = job.(Job.max_retries)
  /\ j'.(Job.created_at) = job.(Job.created_at) /\ j'.(Job.updated_at) = job.(Job.updated_at)
  /\ j'.(Job.error_message) = Some msg.
Proof.
  cbn zeta. unfold handle_job_failure. destruct job; cbn.
  destruct (_ >=? _); cbn; [destruct (int_str_ok _); done|].
  destruct (timedelta_seconds _); cbn; [destruct (datetime_add _ _)|]; cbn; try done.
  destruct (_ && _ && _); done.
Qed.

Lemma execute_job_state iso cfg now job out :
  let j' := (execute_job iso cfg now job out).1 in
  j'.(Job.state) = JobState.COMPLETED \/ j'.(Job.state) = JobState.FAILED
  \/ j'.(Job.state) = JobState.DEAD.
Proof.
  cbn zeta. unfold execute_job.
  set (j1 := Job.set_attempts job (job.(Job.attempts) + 1)).
  assert (Hf : forall j msg, let j' := (handle_job_failure iso cfg now j msg).1 in
            j'.(Job.state) = JobState.FAILED \/ j'.(Job.state) = JobState.DEAD).
  { intros j msg. destruct (handle_job_failure_shape iso cfg now j msg) as (_ & _ & [H|[H _]]);
      auto. }
  destruct out as [rc so se| |e]; [|apply or_intror, Hf..].
  destruct (rc =? 0); [by left|].
  destruct (handle_job_failure iso cfg now j1 _) as [j2 [e|]] eqn:Hh;
    apply or_intror; [apply Hf|].
  pose proof (Hf j1 (if py_truthy_str se then py_strip se else "Exit code: " +:+ pretty rc)).
  by rewrite Hh in H.
Qed.

(** X2: [Worker._execute_job] on every outcome of the command: the attempt
    counter goes up by exactly one, and the id, the command, the retry
    budget and both timestamps are kept. A successful command leaves the
    job [completed] without an error message; any failure leaves it
    [failed] or [dead] with an error message. *)
Theorem execute_job_result iso cfg now job out :
  let j' := (execute_job iso cfg now job out).1 in
  j'.(Job.attempts) = job.(Job.attempts) + 1
  /\ j'.(Job.id) = job.(Job.id) /\ j'.(Job.command) = job.(Job.command)
  /\ j'.(Job.max_retries) = job.(Job.max_retries)
  /\ j'.(Job.created_at) = job.(Job.created_at) /\ j'.(Job.updated_at) = job.(Job.updated_at)
  /\ (match out with Completed rc _ _ => rc = 0 | _ => False end ->
      j'.(Job.state) = JobState.COMPLETED /\ j'.(Job.error_message) = None)
  /\ (~ match out with Completed rc _ _ => rc = 0 | _ => False end ->
      (j'.(Job.state) = JobState.FAILED \/ j'.(Job.state) = JobState.DEAD)
      /\ exists e, j'.(Job.error_message) = Some e).
Proof.
  cbn zeta.
  pose proof (execute_job_state iso cfg now job out) as Hst. cbn zeta in Hst.
  unfold execute_job in *.
  set (j1 := Job.set_attempts job (job.(Job.attempts) + 1)) in *.
  assert (H1 : j1.(Job.attempts) = job.(Job.attempts) + 1 /\ j1.(Job.id) = job.(Job.id)
               /\ j1.(Job.command) = job.(Job.command)
               /\ j1.(Job.max_retries) = job.(Job.max_retries)
               /\ j1.(Job.created_at) = job.(Job.created_at)
               /\ j1.(Job.updated_at) = job.(Job.updated_at)) by (by destruct job).
  destruct H1 as (Ha & Hi & Hc & Hm & Hca & Hua).
  assert (Hfail : forall j0 msg,
    j0.(Job.attempts) = job.(Job.attempts) + 1 -> j0.(Job.id) = job.(Job.id) ->
    j0.(Job.command) = job.(Job.command) -> j0.(Job.max_retries) = job.(Job.max_retries) ->
    j0.(Job.created_at) = job.(Job.created_at) -> j0.(Job.updated_at) = job.(Job.updated_at) ->
    let j' := (handle_job_failure iso cfg now j0 msg).1 in
    j'.(Job.attempts) = job.(Job.attempts) + 1
    /\ j'.(Job.id) = job.(Job.id) /\ j'.(Job.command) = job.(Job.command)
    /\ j'.(Job.max_retries) = job.(Job.max_retries)
    /\ j'.(Job.created_at) = job.(Job.created_at) /\ j'.(Job.updated_at) = job.(Job.updated_at)
    /\ exists e, j'.(Job.error_message) = Some e).
  { intros j0 msg H0a H0i H0c H0m H0ca H0ua.
    destruct (handle_job_failure_fields iso cfg now j0 msg) as (F1 & F2 & F3 & F4 & F5 & F6 & F7).
    repeat split; try congruence. by eexists. }
  assert (Hsh : forall j msg, let j' := (handle_job_failure iso cfg now j msg).1 in
            j'.(Job.state) = JobState.FAILED \/ j'.(Job.state) = JobState.DEAD).
  { intros j msg. destruct (handle_job_failure_shape iso cfg now j msg) as (_ & _ & [Hd|[Hd _]]);
      auto. }
  destruct out as [rc so se| |e].
  - destruct (Z.eqb_spec rc 0) as [->|Hrc].
    + cbn. destruct job; cbn in *. repeat split; try done; intros Hc0; by destruct Hc0.
    + set (msg := if py_truthy_str se then py_strip se else "Exit code: " +:+ pretty rc) in *.
      destruct (handle_job_failure iso cfg now j1 msg) as [j2 [e|]] eqn:Hh.
      * destruct (handle_job_failure_fields iso cfg now j1 msg) as (F1 & F2 & F3 & F4 & F5 & F6 & _).
        rewrite Hh in F1, F2, F3, F4, F5, F6. cbn in F1, F2, F3, F4, F5, F6.
        destruct (Hfail j2 e) as (G1 & G2 & G3 & G4 & G5 & G6 & G7); try congruence.
        repeat split; try done; repeat intro; repeat split; auto using Hsh.
      * destruct (Hfail j1 msg) as (G1 & G2 & G3 & G4 & G5 & G6 & G7); try congruence.
        pose proof (Hsh j1 msg) as Hs1.
        rewrite Hh in G1, G2, G3, G4, G5, G6, G7, Hs1. cbn in *.
        repeat split; try done; repeat intro; repeat split; auto.
  - destruct (Hfail j1 ("Job timed out after " +:+ pretty (Config.job_timeout cfg) +:+ " seconds")
                Ha Hi Hc Hm Hca Hua) as (G1 & G2 & G3 & G4 & G5 & G6 & G7).
    repeat split; try done; repeat intro; repeat split; auto using Hsh.
  - destruct (Hfail j1 e Ha Hi Hc Hm Hca Hua) as (G1 & G2 & G3 & G4 & G5 & G6 & G7).
    repeat split; try done; repeat intro; repeat split; auto using Hsh.
Qed.

Lemma handle_job_failure_raise iso cfg now job msg :
  0 <= now <= DATETIME_MAX_US ->
  ((handle_job_failure iso cfg now job msg).2 <> None
   <-> (if job.(Job.attempts) <? job.(Job.max_retries) then
          ~ (0 <= now + backoff_delay job.(Job.attempts) cfg.(Config.backoff_base)
                       * US_PER_SECOND <= DATETIME_MAX_US)
          \/ ~ (Z.abs job.(Job.attempts) < 10 ^ 4300
                /\ Z.abs job.(Job.max_retries) < 10 ^ 4300)
        else ~ Z.abs job.(Job.attempts) < 10 ^ 4300)).
Proof.
  intros Hnow.
  destruct (Z.ltb_spec job.(Job.attempts) job.(Job.max_retries)) as [Hlt|Hge].
  - destruct (handle_job_failure_budget_left iso cfg now job msg Hnow Hlt) as [Hin Hout].
    cbn zeta in Hin, Hout.
    destruct (decide (0 <= now + backoff_delay (Job.attempts job) (Config.backoff_base cfg)
                              * US_PER_SECOND <= DATETIME_MAX_US)) as [Hr|Hr].
    + rewrite (Hin Hr). cbn. rewrite <- !int_str_ok_iff.
      destruct (int_str_ok (Job.attempts job)), (int_str_ok (Job.max_retries job)); cbn;
        split; first
        [ intros Hn; exfalso; apply Hn; reflexivity
        | intros [H|H]; [contradiction | exfalso; apply H; split; reflexivity]
        | intros _; right; intros [? ?]; discriminate
        | intros _; discriminate ].
    + destruct (Hout Hr) as [e ->]. cbn. split; [tauto|]. intros _. discriminate.
  - unfold handle_job_failure. destruct job as [? ? ? a m ? ? ? ?]; cbn in *.
    replace (a >=? m) with true by lia. rewrite <- int_str_ok_iff.
    destruct (int_str_ok a); cbn; split; first
      [ intros Hn; exfalso; apply Hn; reflexivity
      | intros _; discriminate ].
Qed.

(** X3: [Worker._execute_job], at a clock within datetime's range and with
    a non-negative incremented attempt count, lets an exception escape
    (which ends [Worker.start]) exactly when the command failed and its
    failure handling raises: with retry budget left, when the retry date
    [now + backoff_base ^ attempts] seconds falls outside datetime's range
    or [attempts] or [max_retries] has more than 4300 decimal digits (the
    progress message prints both); when the job moves to the dead letter
    queue, when [attempts] has more than 4300 digits. A success never stops
    the worker, and the second handling in [except Exception] never
    recovers. *)
Theorem execute_job_raises_iff iso cfg now job out :
  0 <= now <= DATETIME_MAX_US -> 0 <= job.(Job.attempts) + 1 ->
  ((execute_job iso cfg now job out).2 <> None
   <-> (match out with Completed rc _ _ => rc <> 0 | _ => True end)
       /\ (if job.(Job.attempts) + 1 <? job.(Job.max_retries) then
             ~ (0 <= now + backoff_delay (job.(Job.attempts) + 1) cfg.(Config.backoff_base)
                          * US_PER_SECOND <= DATETIME_MAX_US)
             \/ ~ (Z.abs (job.(Job.attempts) + 1) < 10 ^ 4300
                   /\ Z.abs job.(Job.max_retries) < 10 ^ 4300)
           else ~ Z.abs (job.(Job.attempts) + 1) < 10 ^ 4300)).
Proof.
  intros Hnow _. unfold execute_job.
  set (j1 := Job.set_attempts job (job.(Job.attempts) + 1)).
  assert (Ha : j1.(Job.attempts) = job.(Job.attempts) + 1) by (by destruct job).
  assert (Hm : j1.(Job.max_retries) = job.(Job.max_retries)) by (by destruct job).
  set (C := if job.(Job.attempts) + 1 <? job.(Job.max_retries) then
             ~ (0 <= now + backoff_delay (job.(Job.attempts) + 1) cfg.(Config.backoff_base)
                          * US_PER_SECOND <= DATETIME_MAX_US)
             \/ ~ (Z.abs (job.(Job.attempts) + 1) < 10 ^ 4300
                   /\ Z.abs job.(Job.max_retries) < 10 ^ 4300)
           else ~ Z.abs (job.(Job.attempts) + 1) < 10 ^ 4300).
  assert (Hj1 : forall msg, ((handle_job_failure iso cfg now j1 msg).2 <> None <-> C)).
  { intros msg. rewrite (handle_job_failure_raise iso cfg now j1 msg Hnow), Ha, Hm. done. }
  destruct out as [rc so se| |e]; [|rewrite Hj1; tauto..].
  destruct (Z.eqb_spec rc 0) as [->|Hrc]; [cbn; split; [done|tauto]|].
  set (msg := if py_truthy_str se then py_strip se else "Exit code: " +:+ pretty rc).
  pose proof (Hj1 msg) as H1.
  destruct (handle_job_failure iso cfg now j1 msg) as [j2 [e|]] eqn:Hh; cbn in H1.
  - assert (Hc : C) by (apply H1; discriminate).
    destruct (handle_job_failure_fields iso cfg now j1 msg) as (_ & _ & F3 & F4 & _).
    rewrite Hh in F3, F4. cbn in F3, F4.
    rewrite (handle_job_failure_raise iso cfg now j2 e Hnow), F3, F4, ?Ha, ?Hm. tauto.
  - cbn. split; [done|]. intros (_ & Hc). exfalso. by apply H1.
Qed.

Lemma execute_job_raises_iff_witness :
  0 <= 0 <= DATETIME_MAX_US /\ 0 <= Job.attempts retry_job + 1
  /\ ((execute_job pretty Config.default 0 retry_job TimeoutExpired).2 <> None
      <-> True
          /\ (if Job.attempts retry_job + 1 <? Job.max_retries retry_job then
                ~ (0 <= 0 + backoff_delay (Job.attempts retry_job + 1) 2 * US_PER_SECOND
                   <= DATETIME_MAX_US)
                \/ ~ (Z.abs (Job.attempts retry_job + 1) < 10 ^ 4300
                      /\ Z.abs (Job.max_retries retry_job) < 10 ^ 4300)
              else ~ Z.abs (Job.attempts retry_job + 1) < 10 ^ 4300)).
Proof.
  split; [vm_compute; split; discriminate|]. split; [vm_compute; discriminate|].
  exact (execute_job_raises_iff pretty Config.default 0 retry_job TimeoutExpired
           ltac:(vm_compute; split; discriminate) ltac:(vm_compute; discriminate)).
Defined.

(** ** Worker: the loop of [Worker.start] *)

Lemma execute_job_id iso cfg now job out :
  (execute_job iso cfg now job out).1.(Job.id) = job.(Job.id).
Proof.
  assert (Hf : forall j msg, (handle_job_failure iso cfg now j msg).1.(Job.id) = j.(Job.id))
    by (intros j msg; apply (handle_job_failure_fields iso cfg now j msg)).
  unfold execute_job. destruct out as [rc so se| |e]; [|rewrite Hf; by destruct job..].
  destruct (rc =? 0); [by destruct job|].
  pose proof (Hf (Job.set_attempts job (Job.attempts job + 1))
    (if py_truthy_str se then py_strip se else "Exit code: " +:+ pretty rc)) as H.
  destruct (handle_job_failure iso cfg now _ _) as [j2 [e|]] eqn:Hh; cbn in H;
    [rewrite Hf|]; destruct job; cbn in *; congruence.
Qed.

(** One pass that acquires a job: the record of that job ends up holding
    the job as executed and saved, without a lease; the other records are
    untouched. *)
Lemma worker_pass iso grace s w now out j s1 :
  well_keyed s -> Store.acquire_next iso grace s w now = Some (j, s1) ->
  let j' := (execute_job iso s.(Store.config) now j out).1 in
  s.(Store.jobs) !! j'.(Job.id) <> None
  /\ (Store.release_job (Store.save_job iso now s1 j') j'.(Job.id)).(Store.jobs)
     = <[j'.(Job.id) := Store.mk_row (Job.set_updated_at j' (iso now)) None None]> s.(Store.jobs).
Proof.
  intros Hwk Ha j'.
  destruct (acquire_next_spec _ _ _ _ _ _ _ Ha) as (k & r & Hk & _ & Hj & Hs1).
  assert (Hid : j'.(Job.id) = k).
  { unfold j'. rewrite execute_job_id, Hj. exact (acquired_id (iso now) s k r Hwk Hk). }
  split; [by rewrite Hid, Hk|].
  unfold Store.release_job. rewrite save_job_lookup.
  assert (Hs1k : s1.(Store.jobs) !! j'.(Job.id) = Some (Store.mk_row j (Some w)
             (Some (now + (s.(Store.config).(Config.job_timeout) + grace) * US_PER_SECOND)))).
  { rewrite Hs1, Hid. unfold Store.set_jobs. cbn [Store.jobs]. by rewrite lookup_insert_eq. }
  rewrite Hs1k. cbn [Store.lease_owner Store.lease_expires_at].
  unfold Store.save_job, Store.set_jobs. cbn [Store.jobs].
  rewrite set_updated_at_id, Hs1. unfold Store.set_jobs. cbn [Store.jobs].
  rewrite Hid, !insert_insert_eq. done.
Qed.

Lemma release_job_unleased s x r :
  s.(Store.jobs) !! x = Some r -> r.(Store.lease_owner) = None ->
  r.(Store.lease_expires_at) = None -> Store.release_job s x = s.
Proof.
  intros Hx Ho He. unfold Store.release_job. rewrite Hx.
  destruct r as [jb o e]; cbn in Ho, He; subst o e.
  unfold Store.set_jobs. rewrite insert_id by exact Hx. by destruct s.
Qed.

(** Worker [w] holds the lease of no record. *)
Definition holds_no_lease (s : Store.t) (w : string) : Prop :=
  forall k r, s.(Store.jobs) !! k = Some r -> r.(Store.lease_owner) <> Some w.

(** Every record in state [processing] in [s'] is the record of [s0]. *)
Definition processing_from (s0 s' : Store.t) : Prop :=
  forall k r, s'.(Store.jobs) !! k = Some r ->
    r.(Store.job).(Job.state) = JobState.PROCESSING -> s0.(Store.jobs) !! k = Some r.

Lemma worker_pass_inv iso grace s0 s w now out j s1 :
  well_keyed s -> holds_no_lease s w -> processing_from s0 s ->
  Store.acquire_next iso grace s w now = Some (j, s1) ->
  let j' := (execute_job iso s.(Store.config) now j out).1 in
  let s2 := Store.release_job (Store.save_job iso now s1 j') j'.(Job.id) in
  well_keyed s2 /\ holds_no_lease s2 w /\ processing_from s0 s2
  /\ Store.release_job s2 j'.(Job.id) = s2.
Proof.
  intros Hwk Hnl Hpr Ha j' s2.
  destruct (worker_pass iso grace s w now out j s1 Hwk Ha) as [Hin Hjobs]. fold j' in Hin, Hjobs.
  assert (Hwk1 := well_keyed_acquire _ _ _ _ _ _ _ Hwk Ha).
  assert (Hwk2 : well_keyed s2) by (apply well_keyed_release, well_keyed_save, Hwk1).
  assert (Hst : Job.state (Job.set_updated_at j' (iso now)) <> JobState.PROCESSING).
  { destruct (execute_job_state iso s.(Store.config) now j out) as [H|[H|H]]; fold j' in H;
      destruct j'; cbn in *; rewrite H; discriminate. }
  assert (Hs2 : s2.(Store.jobs)
                = <[j'.(Job.id) := Store.mk_row (Job.set_updated_at j' (iso now)) None None]>
                    s.(Store.jobs)) by exact Hjobs.
  split; [exact Hwk2|]. unfold holds_no_lease, processing_from. rewrite Hs2.
  split; [|split].
  - intros k r. rewrite lookup_insert. case_decide.
    + intros [= <-]. discriminate.
    + apply Hnl.
  - intros k r. rewrite lookup_insert. case_decide.
    + intros [= <-]. cbn [Store.job]. intros Hp. by destruct Hst.
    + apply Hpr.
  - apply (release_job_unleased _ _ (Store.mk_row (Job.set_updated_at j' (iso now)) None None));
      [by rewrite Hs2, lookup_insert_eq|done..].
Qed.

Lemma worker_start_inv iso grace s0 w ticks : forall s,
  well_keyed s -> holds_no_lease s w -> processing_from s0 s ->
  let s' := (worker_start iso grace s w ticks).1 in
  well_keyed s' /\ holds_no_lease s' w /\ processing_from s0 s'.
Proof.
  induction ticks as [|t ticks IH]; intros s Hwk Hnl Hpr; cbn; [done|].
  destruct (Store.acquire_next iso grace s w (tick_now t)) as [[j s1]|] eqn:Ha.
  - destruct (worker_pass_inv iso grace s0 s w (tick_now t) (tick_out t) j s1 Hwk Hnl Hpr Ha)
      as (H1 & H2 & H3 & H4).
    destruct (execute_job iso (Store.config s) (tick_now t) j (tick_out t)) as [j' [e|]].
    + cbn in *. rewrite H4. done.
    + cbn in *. destruct (tick_signal t); [done|]. by apply IH.
  - destruct (tick_signal t); [done|]. by apply IH.
Qed.

(** X4: [Worker.start] over any schedule of passes, from a store in which
    worker [w] holds no lease: whether the schedule ends, a shutdown
    signal stops the loop, or an exception from an attempt ends it, the
    worker holds no lease afterwards, and every job it acquired has left
    the state [processing]; the records still [processing] are exactly as
    they were before the worker started. *)
Theorem worker_start_leaves_no_lease iso grace s w ticks :
  well_keyed s -> holds_no_lease s w ->
  let s' := (worker_start iso grace s w ticks).1 in
  well_keyed s' /\ holds_no_lease s' w
  /\ forall k r, s'.(Store.jobs) !! k = Some r ->
       r.(Store.job).(Job.state) = JobState.PROCESSING -> s.(Store.jobs) !! k = Some r.
Proof.
  intros Hwk Hnl.
  exact (worker_start_inv iso grace s w ticks s Hwk Hnl (fun k r Hk _ => Hk)).
Qed.

(** The store after [retry_job] is enqueued. *)
Definition one_job_store : Store.t :=
  Store.save_job pretty 0 (Store.empty Config.default) retry_job.

Lemma one_job_store_no_lease w : holds_no_lease one_job_store w.
Proof.
  intros k r Hk. unfold one_job_store, Store.save_job, Store.set_jobs in Hk.
  cbn [Store.jobs Store.empty] in Hk. rewrite lookup_empty in Hk.
  apply lookup_insert_Some in Hk as [[_ <-]|[_ Hk]]; [discriminate|].
  by rewrite lookup_empty in Hk.
Qed.

Lemma worker_start_leaves_no_lease_witness :
  well_keyed one_job_store /\ holds_no_lease one_job_store "w1"
  /\ holds_no_lease
       (worker_start pretty 5 one_job_store "w1" [mk_tick 10 (Completed 1 "" "") false]).1 "w1".
Proof.
  assert (Hwk : well_keyed one_job_store) by apply well_keyed_save, well_keyed_empty.
  split; [exact Hwk|]. split; [apply one_job_store_no_lease|].
  exact (proj1 (proj2 (worker_start_leaves_no_lease pretty 5 one_job_store "w1"
                          [mk_tick 10 (Completed 1 "" "") false]
                          Hwk (one_job_store_no_lease "w1")))).
Defined.

(** ** cli.py: [get] and [enqueue] on text *)

Lemma json_loads_newline_object X :
  json_loads (String "010"%char (String "{"%char X)) =
  match scan_object (S (S (String.length X))) X with
  | Some (d, t) =>
      match skip_ws t with
      | EmptyString => Ret d
      | _ => Raise "JSONDecodeError: Extra data"
      end
  | None => Raise "JSONDecodeError"
  end.
Proof. reflexivity. Qed.

(** [json.loads] reads back what [get] prints: [json.dumps(d, indent=2)]
    between two newlines. *)
Lemma json_loads_get_output d s :
  d <> [] -> json_dumps_indent2 d = Ret s ->
  json_loads (String "010"%char (s +:+ String "010"%char EmptyString)) = Ret (dict_of_pairs d).
Proof.
  intros Hne Hs. destruct d as [|[k v] rest]; [done|].
  cbn [json_dumps_indent2] in Hs.
  destruct (iterencode_items true ((k, v) :: rest)) as [items|] eqn:Hit; [|discriminate Hs].
  cbn [py_bind] in Hs. injection Hs as <-.
  pose proof (iterencode_items_length _ _ _ Hit) as Hlen.
  destruct (iterencode_items_cons_inv true k v rest items Hit) as (ev & er & Hv & Her & ->).
  change (EmptyString +:+ encode_basestring_ascii k +:+ key_separator +:+ ev +:+ er)
    with (encode_basestring_ascii k +:+ key_separator +:+ ev +:+ er) in Hlen |- *.
  set (items := encode_basestring_ascii k +:+ key_separator +:+ ev +:+ er) in Hlen |- *.
  change (json_loads (String "010"%char (String "{"%char (newline_indent
            +:+ ((items +:+ String "010"%char "}") +:+ String "010"%char EmptyString))))
          = Ret (dict_of_pairs ((k, v) :: rest))).
  rewrite string_app_assoc.
  change (String "010"%char "}" +:+ String "010"%char EmptyString)
    with (String "010"%char (String "}"%char (String "010"%char EmptyString))).
  rewrite json_loads_newline_object.
  assert (Hobj : forall fuel, (length rest < fuel)%nat ->
            scan_object fuel (newline_indent +:+ items
                              +:+ String "010"%char (String "}"%char (String "010"%char EmptyString)))
            = Some (dict_of_pairs ((k, v) :: rest), String "010"%char EmptyString)).
  { intros fuel Hf. unfold scan_object, items. rewrite !string_app_assoc, skip_newline_indent.
    cbv beta iota. change (Ascii.eqb "034"%char "}"%char) with false.
    rewrite Ascii.eqb_refl. cbv beta iota.
    by rewrite (scan_members_items rest k v [] fuel (String "010"%char EmptyString) ev er Hv Her Hf). }
  rewrite Hobj; [done|].
  rewrite !string_app_length. cbn [List.length] in Hlen. lia.
Qed.

(** X5: [queuectl get X] on a job [j] stored under [X] whose [attempts]
    and [max_retries] have at most 4300 decimal digits (below [10^4300] in
    absolute value) prints [j]; fed back to [queuectl enqueue], that text
    is refused with exit status 1 by the same store, which stays
    unchanged, and it enqueues [j] itself (with [updated_at] bumped to
    now) into any store that has no job with id [X]. When one of the two
    numbers has more digits, [j.to_json()] raises and [queuectl get X]
    exits with status 1 and prints nothing on stdout. *)
Theorem get_enqueue_roundtrip iso read_file now s x j s' :
  well_keyed s -> Store.get_job s x = Some j ->
  (Z.abs j.(Job.attempts) < 10 ^ 4300 -> Z.abs j.(Job.max_retries) < 10 ^ 4300 ->
   exists out, get_cmd s x = (0, out)
   /\ enqueue_cmd iso read_file now s out = (1, s)
   /\ (Store.get_job s' x = None ->
       enqueue_cmd iso read_file now s' out = (0, Store.save_job iso now s' j)))
  /\ (~ Z.abs j.(Job.attempts) < 10 ^ 4300 \/ ~ Z.abs j.(Job.max_retries) < 10 ^ 4300 ->
      get_cmd s x = (1, EmptyString)).
Proof.
  intros Hwk Hx. split.
  - intros Ha Hm. apply int_str_ok_iff in Ha, Hm.
    pose proof (get_job_well_keyed s x j Hwk Hx) as Hid.
    destruct (to_json_int_ok j Ha Hm) as [t Ht].
    assert (Hd : from_dict (iso now) (to_dict j) = Ret j)
      by (destruct j as [? ? ? ? ? ? ? [] []]; reflexivity).
    assert (Hl : json_loads (String "010"%char (t +:+ String "010"%char EmptyString))
                 = Ret (to_dict j)).
    { rewrite (json_loads_get_output (to_dict j) t
                 ltac:(unfold to_dict; intros Hnil; discriminate Hnil) Ht).
      reflexivity. }
    assert (Hmr : has_key (to_dict j) "max_retries" = true) by reflexivity.
    exists (String "010"%char (t +:+ String "010"%char EmptyString)).
    split; [unfold get_cmd, to_json; by rewrite Hx, Ht|].
    unfold enqueue_cmd, enqueue. rewrite Hl, Hmr, Hd, Hid. split; [by rewrite Hx|].
    intros Hs'. by rewrite Hs'.
  - intros H.
    destruct (to_json_int_limit j) as [e He].
    { destruct H as [H|H]; [left|right]; by apply int_str_ok_false. }
    unfold get_cmd. by rewrite Hx, He.
Qed.

Lemma get_enqueue_roundtrip_witness :
  well_keyed one_job_store /\ Store.get_job one_job_store "r1" = Some (Job.set_updated_at retry_job "0")
  /\ Z.abs 0 < 10 ^ 4300 /\ Z.abs 3 < 10 ^ 4300
  /\ exists out, get_cmd one_job_store "r1" = (0, out)
     /\ enqueue_cmd pretty (fun _ => None) 7 one_job_store out = (1, one_job_store)
     /\ (Store.get_job (Store.empty Config.default) "r1" = None ->
         enqueue_cmd pretty (fun _ => None) 7 (Store.empty Config.default) out
         = (0, Store.save_job pretty 7 (Store.empty Config.default)
                 (Job.set_updated_at retry_job "0"))).
Proof.
  assert (Hwk : well_keyed one_job_store) by apply well_keyed_save, well_keyed_empty.
  assert (Hg : Store.get_job one_job_store "r1" = Some (Job.set_updated_at retry_job "0"))
    by reflexivity.
  assert (H0 : Z.abs 0 < 10 ^ 4300) by (apply int_str_ok_iff; reflexivity).
  assert (H3 : Z.abs 3 < 10 ^ 4300) by (apply int_str_ok_iff; reflexivity).
  split; [exact Hwk|]. split; [exact Hg|]. split; [exact H0|]. split; [exact H3|].
  exact (proj1 (get_enqueue_roundtrip pretty (fun _ => None) 7 one_job_store "r1"
           (Job.set_updated_at retry_job "0") (Store.empty Config.default) Hwk Hg) H0 H3).
Defined.

(** X6: [queuectl enqueue TEXT] either exits with status 1 and leaves the
    store as it was (unreadable file, malformed JSON, a job the dataclass
    refuses, or an id already present), or exits with status 0 having
    added one job under an id that was absent: it never overwrites a
    stored job. *)
Theorem enqueue_cmd_outcome iso read_file now s text :
  let '(code, s') := enqueue_cmd iso read_file now s text in
  (code = 1 /\ s' = s)
  \/ (code = 0 /\ exists j, Store.get_job s j.(Job.id) = None
                            /\ s' = Store.save_job iso now s j).
Proof.
  unfold enqueue_cmd, enqueue.
  destruct (match text with String "@"%char p => read_file p | _ => Some text end)
    as [t|]; [|by left].
  destruct (json_loads t) as [d|]; [|by left].
  destruct (from_dict _ _) as [j|]; [|by left].
  destruct (Store.get_job s j.(Job.id)) eqn:Hg; [by left|].
  right. split; [done|]. by exists j.
Qed.

(** X7: [enqueue] of a job given by its id and command only: it is stored
    [pending], with no attempt made, the retry budget of the current
    config, both timestamps at now, and neither retry date nor error
    message. *)
Theorem enqueue_minimal_defaults iso now s i c :
  Store.get_job s i = None ->
  enqueue iso now s [("id", PStr i); ("command", PStr c)]
  = (0, Store.save_job iso now s
          (Job.mk i c JobState.PENDING 0 s.(Store.config).(Config.max_retries)
                  (iso now) (iso now) None None)).
Proof. intros Hs. unfold enqueue. cbn. by rewrite Hs. Qed.

Lemma enqueue_minimal_defaults_witness :
  Store.get_job (Store.empty Config.default) "job1" = None
  /\ enqueue pretty 0 (Store.empty Config.default) [("id", PStr "job1"); ("command", PStr "echo Hello")]
     = (0, Store.save_job pretty 0 (Store.empty Config.default)
             (Job.mk "job1" "echo Hello" JobState.PENDING 0 3 (pretty 0) (pretty 0) None None)).
Proof.
  split; [reflexivity|].
  exact (enqueue_minimal_defaults pretty 0 (Store.empty Config.default) "job1" "echo Hello"
           eq_refl).
Defined.

(** ** cli.py: [config set] *)

Lemma int_digits_pretty_N x : forall acc n s,
  exists k, 0 <= k /\ (x = 0%N -> k = 0) /\ Z.of_N x < 10 ^ k
  /\ ((0 < x)%N -> 10 ^ (k - 1) <= Z.of_N x)
  /\ int_digits acc n (pretty_N_go x s) = int_digits (acc * 10 ^ k + Z.of_N x) (n + k) s.
Proof.
  induction (N.lt_wf_0 x) as [x _ IH]; intros acc n s.
  destruct (decide (x = 0%N)) as [->|Hx].
  - exists 0. rewrite pretty_N_go_0. split; [lia|]. split; [done|]. split; [cbn; lia|].
    split; [lia|]. f_equal; lia.
  - rewrite pretty_N_go_step by lia.
    destruct (IH (x `div` 10)%N (N.div_lt x 10 ltac:(lia) ltac:(lia)) acc n
                 (String (pretty_N_char (x `mod` 10)) s)) as (k & Hk0 & Hkz & Hlt & Hge & Hm).
    rewrite Hm.
    destruct (pretty_N_char_digit (x `mod` 10)) as (Hd & Hv & _);
      [apply N.mod_lt; lia|].
    exists (k + 1). cbn [int_digits]. rewrite Hd, Hv.
    pose proof (N.div_mod x 10 ltac:(lia)) as E.
    pose proof (N.mod_lt x 10 ltac:(lia)) as Emod.
    apply (f_equal Z.of_N) in E. rewrite N2Z.inj_add, N2Z.inj_mul in E.
    change (Z.of_N 10) with 10 in E.
    assert (Emod' : Z.of_N (x `mod` 10) < 10) by lia.
    rewrite Z.pow_add_r by lia. cbn [Z.pow Z.pow_pos Pos.iter].
    split; [lia|]. split; [lia|]. split; [nia|]. split.
    + intros _. replace (k + 1 - 1) with k by lia.
      destruct (decide (x `div` 10 = 0)%N) as [Hq|Hq].
      * rewrite (Hkz Hq). cbn. lia.
      * assert (Hk1 : 1 <= k).
        { destruct (Z.eq_dec k 0) as [->|]; [|lia]. cbn in Hlt. lia. }
        specialize (Hge ltac:(lia)).
        replace k with (k - 1 + 1) at 1 by lia. rewrite Z.pow_add_r, Z.pow_1_r by lia.
        pose proof (N2Z.is_nonneg (x `mod` 10)) as Hr. rewrite E.
        revert Hge Hr. generalize (10 ^ (k - 1)) (Z.of_N (x `div` 10)) (Z.of_N (x `mod` 10)).
        intros. lia.
    + f_equal; [nia | lia].
Qed.

Lemma unicode_space_char c :
  is_unicode_space c = true ->
  is_digit c = false /\ Ascii.eqb c "_" = false /\ Ascii.eqb c "-" = false
  /\ Ascii.eqb c "+" = false.
Proof. destruct c as [[] [] [] [] [] [] [] []]; cbn; intros H; try discriminate H; done. Qed.

Lemma int_digits_spaces acc n s :
  all_unicode_space s = true -> int_digits acc n s = Some (acc, n, s).
Proof.
  destruct s as [|c r]; [done|]. cbn. intros H. apply andb_true_iff in H as [Hc _].
  destruct (unicode_space_char c Hc) as (H1 & H2 & _). by rewrite H1, H2.
Qed.

Lemma lstrip_unicode_app a b :
  all_unicode_space a = true -> lstrip_unicode (a +:+ b) = lstrip_unicode b.
Proof.
  induction a as [|c a IH]; [done|]. cbn. intros H. apply andb_true_iff in H as [Hc Ha].
  rewrite Hc. by apply IH.
Qed.

Lemma digit_not_space c : is_digit c = true ->
  is_unicode_space c = false /\ Ascii.eqb c "-" = false /\ Ascii.eqb c "+" = false.
Proof. destruct c as [[] [] [] [] [] [] [] []]; cbn; intros H; try discriminate H; done. Qed.

(** [int(str(n))] with whitespace around it gives back [n], within the
    digit limit. *)
Lemma py_int_pretty m lpad rpad z :
  all_unicode_space lpad = true -> all_unicode_space rpad = true ->
  (m <= 0 \/ Z.abs z < 10 ^ m) ->
  py_int m (lpad +:+ pretty z +:+ rpad) = Some z.
Proof.
  intros Hl Hr Hm. unfold py_int. rewrite lstrip_unicode_app by exact Hl.
  assert (Hdig : forall p, exists c r k, pretty (Zpos p) +:+ rpad = String c r
            /\ is_digit c = true
            /\ int_digits (digit_val c) 1 r = Some (Zpos p, k, rpad)
            /\ 10 ^ (k - 1) <= Zpos p /\ 1 <= k).
  { intros p. rewrite pretty_Z_pos, <- (pretty_N_go_app _ "" rpad).
    change ("" +:+ rpad) with rpad.
    destruct (pretty_N_go_head (Npos p) rpad ltac:(lia)) as (c & r & Hcr & Hd & _).
    destruct (int_digits_pretty_N (Npos p) 0 0 rpad) as (k & Hk0 & _ & Hlt & Hge & Hk).
    rewrite Hcr in Hk |- *. cbn [int_digits] in Hk. rewrite Hd in Hk.
    exists c, r, k. split; [done|]. split; [done|]. split.
    - change (10 * 0 + digit_val c) with (digit_val c) in Hk.
      change (0 + 1) with 1 in Hk. rewrite Hk.
      rewrite int_digits_spaces by exact Hr. repeat f_equal; lia.
    - specialize (Hge ltac:(lia)). split; [lia|].
      destruct (Z.eq_dec k 0) as [->|]; [cbn in Hlt; lia|lia]. }
  assert (Hlim : forall k, 10 ^ (k - 1) <= Z.abs z -> 1 <= k ->
            (0 <? m) && (m <? k) = false).
  { intros k Hk Hk1. destruct (Z.leb_spec m 0) as [Hm0|Hm0].
    - apply andb_false_iff. left. apply Z.ltb_ge. lia.
    - destruct Hm as [Hm|Hm]; [lia|].
      apply andb_false_iff. right. apply Z.ltb_ge.
      assert (k - 1 < m); [|lia].
      apply (Z.pow_lt_mono_r_iff 10); lia. }
  destruct z as [|p|p].
  - change (pretty 0) with (String "0" EmptyString). cbn [String.append lstrip_unicode].
    destruct (digit_not_space "0" eq_refl) as (Hs & Hmn & Hpl).
    rewrite Hs, Hmn, Hpl. cbn [is_digit digit_val].
    change (is_digit "0") with true. cbn iota.
    change (digit_val "0") with 0.
    rewrite (int_digits_spaces 0 1 rpad Hr), Hr.
    destruct (Z.ltb_spec 0 m), (Z.ltb_spec m 1); cbn; try done; lia.
  - destruct (Hdig p) as (c & r & k & Hcr & Hd & Hk & Hge & Hk1). rewrite Hcr.
    destruct (digit_not_space c Hd) as (Hs & Hmn & Hpl).
    cbn [lstrip_unicode]. rewrite Hs. rewrite Hmn, Hpl. rewrite Hd, Hk, Hr.
    rewrite (Hlim k); [done|cbn; lia|lia].
  - destruct (Hdig p) as (c & r & k & Hcr & Hd & Hk & Hge & Hk1).
    change (pretty (Zneg p)) with ("-" +:+ pretty (Zpos p)).
    rewrite string_app_assoc, Hcr. cbn [String.append lstrip_unicode].
    change (is_unicode_space "-") with false. cbn iota.
    change (Ascii.eqb "-" "-") with true. cbn iota beta. rewrite Hd, Hk, Hr.
    rewrite (Hlim k); [done|cbn; lia|lia].
Qed.


(** X8: [config set] with an integer key stores the integer that the text
    spells, whitespace around it allowed, and keeps the other fields. *)
Theorem config_set_int_value m fok s key k lpad rpad n :
  config_key_of key = Some k -> k <> KWorkerPollInterval ->
  all_unicode_space lpad = true -> all_unicode_space rpad = true ->
  (m <= 0 \/ Z.abs n < 10 ^ m) ->
  config_set m fok s key (lpad +:+ pretty n +:+ rpad)
  = (0, Store.save_config s (config_with s.(Store.config) k n)).
Proof.
  intros Hk Hnp Hl Hr Hm. unfold config_set. rewrite Hk.
  rewrite (py_int_pretty m lpad rpad n Hl Hr Hm).
  destruct k; done.
Qed.

Lemma config_set_int_value_witness :
  config_key_of "max-retries" = Some KMaxRetries /\
  config_set 4300 (fun _ => true) (Store.empty Config.default) "max-retries"
    (" " +:+ pretty 5 +:+ String "010" EmptyString)
  = (0, Store.save_config (Store.empty Config.default)
          (config_with Config.default KMaxRetries 5)).
Proof.
  split; [reflexivity|].
  exact (config_set_int_value 4300 (fun _ => true) (Store.empty Config.default)
           "max-retries" KMaxRetries " " (String "010" EmptyString) 5
           eq_refl ltac:(discriminate) eq_refl eq_refl ltac:(right; reflexivity)).
Defined.



(** ** cli.py: [clear] and [dlq clear] *)

Lemma delete_all_shape s jobs :
  delete_all s jobs
  = Store.mk (fold_left (fun m j => delete j.(Job.id) m) jobs s.(Store.jobs)) s.(Store.config).
Proof.
  revert s. induction jobs as [|j js IH]; intros s; [by destruct s|].
  cbn [delete_all fold_left]. unfold delete_all in IH. rewrite IH. done.
Qed.

Lemma fold_delete_lookup (js : list Job.t) (m : gmap string Store.row) k :
  fold_left (fun m j => delete j.(Job.id) m) js m !! k
  = if existsb (fun j => String.eqb j.(Job.id) k) js then None else m !! k.
Proof.
  revert m. induction js as [|j js IH]; intros m; [done|].
  cbn [fold_left existsb]. rewrite IH, lookup_delete.
  destruct (String.eqb_spec j.(Job.id) k); case_decide; cbn;
    try done; destruct (existsb _ js); done.
Qed.

Lemma in_get_all_jobs s j :
  In j (get_all_jobs s) <-> exists k r, s.(Store.jobs) !! k = Some r /\ r.(Store.job) = j.
Proof.
  unfold get_all_jobs. rewrite <- list_elem_of_In, list_elem_of_fmap. split.
  - intros ([k r] & -> & H). apply elem_of_map_to_list in H. eauto.
  - intros (k & r & H & <-). exists (k, r). split; [done|]. by apply elem_of_map_to_list.
Qed.

Lemma existsb_id_filter s (P : Job.t -> bool) k :
  well_keyed s ->
  existsb (fun j => String.eqb j.(Job.id) k) (List.filter P (get_all_jobs s))
  = match s.(Store.jobs) !! k with Some r => P r.(Store.job) | None => false end.
Proof.
  intros Hwk. apply Bool.eq_true_iff_eq. rewrite existsb_exists. split.
  - intros (j & Hin & Hid). apply filter_In in Hin as [Hin HP].
    apply in_get_all_jobs in Hin as (k' & r & Hk' & <-).
    apply String.eqb_eq in Hid. rewrite (Hwk _ _ Hk') in Hid. subst k'.
    by rewrite Hk'.
  - destruct (s.(Store.jobs) !! k) as [r|] eqn:Hk; [|done]. intros HP.
    exists r.(Store.job). split.
    + apply filter_In. split; [|done]. apply in_get_all_jobs. eauto.
    + apply String.eqb_eq. exact (Hwk _ _ Hk).
Qed.

Lemma delete_all_filter s (P : Job.t -> bool) :
  well_keyed s ->
  delete_all s (List.filter P (get_all_jobs s))
  = Store.set_jobs s (filter (fun kv => P kv.2.(Store.job) = false) s.(Store.jobs)).
Proof.
  intros Hwk. rewrite delete_all_shape. unfold Store.set_jobs. f_equal.
  apply map_eq. intros k. rewrite fold_delete_lookup, existsb_id_filter by exact Hwk.
  rewrite map_lookup_filter. destruct (s.(Store.jobs) !! k) as [r|]; [|done].
  cbn. destruct (P r.(Store.job)); cbn.
  - rewrite option_guard_False; [done|]. cbn. congruence.
  - by rewrite option_guard_True.
Qed.

Lemma length_filter_get_all_jobs s (P : Job.t -> bool) :
  length (List.filter P (get_all_jobs s))
  = size (filter (fun kv => P kv.2.(Store.job) = true) s.(Store.jobs)).
Proof.
  rewrite map_filter_alt, map_size_list_to_map.
  - unfold get_all_jobs. generalize (map_to_list s.(Store.jobs)) as l.
    induction l as [|[k r] l IH]; [done|].
    rewrite fmap_cons, filter_cons. cbn [List.filter snd].
    destruct (P r.(Store.job)) eqn:HP.
    + rewrite decide_True by done. cbn [length]. by rewrite IH.
    + rewrite decide_False by (cbn; congruence). exact IH.
  - apply (sublist_NoDup _ _ (NoDup_fst_map_to_list s.(Store.jobs))).
    apply fmap_sublist, sublist_filter.
Qed.

Lemma filter_true_id {A} (l : list A) : List.filter (fun _ => true) l = l.
Proof. induction l as [|x l IH]; [done|]. cbn. by rewrite IH. Qed.

Lemma filter_state_eqb s st :
  filter (fun kv : string * Store.row => String.eqb kv.2.(Store.job).(Job.state) st = false)
    s.(Store.jobs)
  = filter (fun kv : string * Store.row => kv.2.(Store.job).(Job.state) <> st) s.(Store.jobs)
  /\ filter (fun kv : string * Store.row => String.eqb kv.2.(Store.job).(Job.state) st = true)
    s.(Store.jobs)
  = filter (fun kv : string * Store.row => kv.2.(Store.job).(Job.state) = st) s.(Store.jobs).
Proof.
  split; apply map_filter_ext; intros k r _; cbn.
  - rewrite <- not_true_iff_false. by rewrite String.eqb_eq.
  - apply String.eqb_eq.
Qed.

(** X10: [clear --state st] with a valid state name (after [lower()])
    deletes exactly the records in that state, keeps every other record
    and the configuration, and reports the number of records deleted;
    with an invalid name it exits 1 and deletes nothing. *)
Theorem clear_jobs_state s st :
  well_keyed s -> py_truthy_str st = true ->
  clear_jobs s (Some st)
  = if existsb (String.eqb (py_lower st)) valid_states
    then (0, Store.set_jobs s (filter (fun kv => kv.2.(Store.job).(Job.state) <> py_lower st)
                                  s.(Store.jobs)),
          size (filter (fun kv => kv.2.(Store.job).(Job.state) = py_lower st) s.(Store.jobs)))
    else (1, s, 0%nat).
Proof.
  intros Hwk Ht. unfold clear_jobs, state_filter. rewrite Ht.
  destruct (existsb _ valid_states); [|done].
  unfold get_jobs_by_state. rewrite delete_all_filter by exact Hwk.
  rewrite length_filter_get_all_jobs.
  destruct (filter_state_eqb s (py_lower st)) as [-> ->]. done.
Qed.

(** A store with one job in each of the states [pending] and [dead]. *)
Definition two_job_store : Store.t :=
  Store.save_job pretty 1 one_job_store
    (Job.mk "d1" "false" JobState.DEAD 3 3 "t0" "t0" (Some "exit 1") None).

Lemma two_job_store_well_keyed : well_keyed two_job_store.
Proof. apply well_keyed_save, well_keyed_save, well_keyed_empty. Qed.

Lemma clear_jobs_state_witness :
  py_truthy_str "DEAD" = true /\
  clear_jobs two_job_store (Some "DEAD")
  = (0, Store.set_jobs two_job_store
          (filter (fun kv => kv.2.(Store.job).(Job.state) <> "dead") two_job_store.(Store.jobs)),
     size (filter (fun kv => kv.2.(Store.job).(Job.state) = "dead") two_job_store.(Store.jobs))).
Proof.
  split; [reflexivity|].
  exact (clear_jobs_state two_job_store "DEAD" two_job_store_well_keyed eq_refl).
Defined.

(** X11: [clear] without a state filter (no [--state], or an empty one)
    deletes every record, keeps the configuration, and reports the number
    of records there were. *)
Theorem clear_jobs_all s state :
  well_keyed s ->
  match state with Some st => py_truthy_str st = false | None => True end ->
  clear_jobs s state = (0, Store.set_jobs s ∅, size s.(Store.jobs)).
Proof.
  intros Hwk Hst.
  assert (Hall : state_filter s state = Some (List.filter (fun _ => true) (get_all_jobs s))).
  { rewrite filter_true_id. destruct state as [st|]; [|done]. cbn. by rewrite Hst. }
  unfold clear_jobs. rewrite Hall, delete_all_filter, length_filter_get_all_jobs by exact Hwk.
  rewrite (map_filter_id (fun _ : string * Store.row => true = true)) by done.
  assert (Hnone : filter (fun _ : string * Store.row => true = false) s.(Store.jobs) = ∅).
  { apply map_eq. intros k. rewrite map_lookup_filter, lookup_empty.
    destruct (s.(Store.jobs) !! k); [|done]. cbn. by rewrite option_guard_False. }
  by rewrite Hnone.
Qed.

Lemma clear_jobs_all_witness :
  clear_jobs two_job_store (Some "") = (0, Store.set_jobs two_job_store ∅, 2%nat).
Proof.
  rewrite (clear_jobs_all two_job_store (Some "") two_job_store_well_keyed eq_refl).
  reflexivity.
Defined.

(** X12: [dlq clear] deletes exactly the [dead] records, keeps every
    other record and the configuration, and reports how many it deleted. *)
Theorem dlq_clear_dead s :
  well_keyed s ->
  dlq_clear s
  = (Store.set_jobs s (filter (fun kv => kv.2.(Store.job).(Job.state) <> JobState.DEAD)
                         s.(Store.jobs)),
     size (filter (fun kv => kv.2.(Store.job).(Job.state) = JobState.DEAD) s.(Store.jobs))).
Proof.
  intros Hwk. unfold dlq_clear, get_jobs_by_state.
  rewrite delete_all_filter, length_filter_get_all_jobs by exact Hwk.
  destruct (filter_state_eqb s JobState.DEAD) as [-> ->]. done.
Qed.

Lemma dlq_clear_dead_witness :
  (dlq_clear two_job_store).2 = 1%nat.
Proof.
  rewrite (dlq_clear_dead two_job_store two_job_store_well_keyed). reflexivity.
Defined.


(** ** cli.py: [list], [dlq list], [status] *)

Lemma take_min_len {A} (l : list A) m : take m l = take (Nat.min m (length l)) l.
Proof.
  destruct (Nat.le_ge_cases m (length l)).
  - by rewrite Nat.min_l.
  - rewrite Nat.min_r by done. rewrite !take_ge; done.
Qed.

Lemma bool_eq_iff_bool_decide (b : bool) (P : Prop) `{Decision P} :
  (b = true <-> P) -> b = bool_decide P.
Proof.
  intros Hb. destruct b.
  - symmetry. apply bool_decide_eq_true_2. by apply Hb.
  - symmetry. apply bool_decide_eq_false_2. intros HP. by apply Hb in HP.
Qed.

Lemma forallb_false_exists {A} (f : A -> bool) (l : list A) :
  forallb f l = false -> exists x, In x l /\ f x = false.
Proof.
  induction l as [|x l IH]; cbn; [discriminate|].
  destruct (f x) eqn:Hx; cbn.
  - intros H. destruct (IH H) as (y & Hy & Hf). exists y. by split; [right|].
  - intros _. exists x. by split; [left|].
Qed.

Lemma forallb_jobs_fit (l : list Job.t) :
  forallb (fun j => int_str_ok j.(Job.attempts) && int_str_ok j.(Job.max_retries)) l = true
  <-> Forall (fun j => Z.abs j.(Job.attempts) < 10 ^ 4300
                       /\ Z.abs j.(Job.max_retries) < 10 ^ 4300) l.
Proof.
  rewrite forallb_forall, Forall_forall. split.
  - intros H j Hj. apply list_elem_of_In, H in Hj.
    apply andb_true_iff in Hj as [Ha Hm]. by split; apply int_str_ok_iff.
  - intros H j Hj. apply list_elem_of_In, H in Hj as [Ha Hm].
    apply andb_true_iff. by split; apply int_str_ok_iff.
Qed.

(** X13: [list] on a non-empty selection shows the first [limit] jobs
    ([l[:limit]], so a negative limit drops that many from the end), and
    prints the "Limited to" line exactly when [0 <= limit <= len(jobs)],
    including when [limit] equals the number of jobs and nothing is
    hidden. This holds when every job shown has [attempts] and
    [max_retries] of at most 4300 decimal digits (below [10^4300] in
    absolute value); otherwise formatting its row raises, nothing is
    printed on stdout and the exit status is 1. *)
Theorem list_jobs_limit s state limit jobs :
  state_filter s state = Some jobs -> jobs <> [] ->
  let n := Z.of_nat (length jobs) in
  let shown := if 0 <=? limit then Z.min n limit else Z.max 0 (n + limit) in
  let fits := Forall (fun j => Z.abs j.(Job.attempts) < 10 ^ 4300
                               /\ Z.abs j.(Job.max_retries) < 10 ^ 4300)
                     (firstn (Z.to_nat shown) jobs) in
  (fits -> list_jobs s state limit
           = (0, Table (list_row <$> firstn (Z.to_nat shown) jobs) shown
                       (bool_decide (0 <= limit <= n))))
  /\ (~ fits -> list_jobs s state limit = (1, NoOutput)).
Proof.
  intros Hs Hne n shown fits. unfold list_jobs. rewrite Hs.
  destruct jobs as [|j js]; [done|].
  set (l := j :: js) in *.
  assert (Hsl : py_slice_to l limit = firstn (Z.to_nat shown) l
                /\ Z.of_nat (length (py_slice_to l limit)) = shown
                /\ (Z.of_nat (length (py_slice_to l limit)) =? limit)
                   = bool_decide (0 <= limit <= n)).
  { unfold py_slice_to. subst shown n.
    destruct (Z.leb_spec 0 limit) as [H0|H0].
    - rewrite length_firstn, (take_min_len l (Z.to_nat limit)).
      replace (Z.to_nat (Z.min (Z.of_nat (length l)) limit))
        with (Nat.min (Z.to_nat limit) (length l)) by lia.
      split; [done|]. split; [lia|].
      apply bool_eq_iff_bool_decide. rewrite Z.eqb_eq. lia.
    - rewrite length_firstn,
        (take_min_len l (Z.to_nat (Z.of_nat (length l) + limit))).
      replace (Z.to_nat (Z.max 0 (Z.of_nat (length l) + limit)))
        with (Nat.min (Z.to_nat (Z.of_nat (length l) + limit)) (length l)) by lia.
      split; [done|]. split; [lia|].
      apply bool_eq_iff_bool_decide. rewrite Z.eqb_eq. lia. }
  destruct Hsl as (Hsl & Hlen & Hlim).
  cbv zeta. change (j :: js) with l. rewrite Hlim, Hlen, Hsl.
  split.
  - intros Hf. apply forallb_jobs_fit in Hf. by rewrite Hf.
  - intros Hf. destruct (forallb _ _) eqn:Hb; [|done].
    exfalso. apply Hf, forallb_jobs_fit, Hb.
Qed.

Lemma list_jobs_limit_witness :
  list_jobs two_job_store None 2
  = (0, Table (list_row <$> get_all_jobs two_job_store) 2 true).
Proof.
  destruct (list_jobs_limit two_job_store None 2 (get_all_jobs two_job_store)
              eq_refl ltac:(vm_compute; discriminate)) as [H _].
  rewrite H; [reflexivity|].
  apply forallb_jobs_fit. vm_compute. reflexivity.
Defined.

Lemma length_substring_0 m x :
  String.length (String.substring 0 m x) = Nat.min m (String.length x).
Proof.
  revert x. induction m as [|m IH]; intros [|c x]; cbn; try done. by rewrite IH.
Qed.

Lemma py_truncate_spec limit keep x :
  (keep + 3 <= limit)%nat ->
  (String.length (py_truncate limit keep x) <= limit)%nat
  /\ ((String.length x <= limit)%nat -> py_truncate limit keep x = x).
Proof.
  intros Hk. unfold py_truncate.
  destruct (Nat.ltb_spec limit (String.length x)) as [Hl|Hl].
  - split; [|lia]. rewrite string_app_length, length_substring_0. cbn. lia.
  - done.
Qed.

(** X14: in a [list] table row the command cell has at most 40
    characters and is the command itself when that fits, the error cell
    has at most 30 characters and is empty for a missing or empty error
    message, and the creation cell is the first 19 characters of
    [created_at]. *)
Theorem list_row_cells job :
  exists cmd err,
    list_row job = [job.(Job.id); cmd; job.(Job.state);
                    pretty job.(Job.attempts) +:+ "/" +:+ pretty job.(Job.max_retries);
                    err; String.substring 0 19 job.(Job.created_at)]
    /\ (String.length cmd <= 40)%nat
    /\ ((String.length job.(Job.command) <= 40)%nat -> cmd = job.(Job.command))
    /\ (String.length err <= 30)%nat
    /\ (job.(Job.error_message) = None \/ job.(Job.error_message) = Some EmptyString ->
        err = EmptyString)
    /\ (String.length (String.substring 0 19 job.(Job.created_at)) <= 19)%nat.
Proof.
  destruct (py_truncate_spec 40 37 job.(Job.command) ltac:(lia)) as [Hc1 Hc2].
  eexists _, _. split; [reflexivity|].
  split; [exact Hc1|]. split; [exact Hc2|]. split; [|split].
  - destruct job.(Job.error_message) as [e|]; cbn; [|lia].
    destruct (py_truthy_str e); cbn; [|lia].
    apply (py_truncate_spec 30 27 e). lia.
  - intros [-> | ->]; done.
  - rewrite length_substring_0. lia.
Qed.

(** X15: in a [dlq list] table row the command and error cells have at
    most 40 characters each and are the text itself when that fits (a
    missing error shows as empty), and the failure time cell is the
    first 19 characters of [updated_at]. *)
Theorem dlq_row_cells job :
  let error := match job.(Job.error_message) with Some e => e | None => EmptyString end in
  exists cmd err,
    dlq_row job = [job.(Job.id); cmd; pretty job.(Job.attempts); err;
                   String.substring 0 19 job.(Job.updated_at)]
    /\ (String.length cmd <= 40)%nat
    /\ ((String.length job.(Job.command) <= 40)%nat -> cmd = job.(Job.command))
    /\ (String.length err <= 40)%nat
    /\ ((String.length error <= 40)%nat -> err = error)
    /\ (String.length (String.substring 0 19 job.(Job.updated_at)) <= 19)%nat.
Proof.
  intros error.
  destruct (py_truncate_spec 40 37 job.(Job.command) ltac:(lia)) as [Hc1 Hc2].
  destruct (py_truncate_spec 40 37 error ltac:(lia)) as [He1 He2].
  eexists _, _. split; [reflexivity|].
  do 4 (split; [done|]). rewrite length_substring_0. lia.
Qed.

Lemma counts_get_count_into c x k :
  counts_get (count_into c x) k = counts_get c k + (if String.eqb x k then 1 else 0).
Proof.
  induction c as [|[k' n] c IH]; cbn.
  - destruct (String.eqb x k); lia.
  - destruct (String.eqb_spec k' x) as [->|Hne]; cbn.
    + destruct (String.eqb x k); lia.
    + rewrite IH. destruct (String.eqb_spec k' k) as [->|]; [|done].
      destruct (String.eqb_spec x k); [congruence|lia].
Qed.

Definition counts_total (c : list (string * Z)) : Z := foldr (fun kv acc => kv.2 + acc) 0 c.

Lemma counts_total_count_into c x : counts_total (count_into c x) = counts_total c + 1.
Proof.
  induction c as [|[k' n] c IH]; cbn; [done|].
  destruct (String.eqb k' x); cbn; [lia|]. unfold counts_total in IH. lia.
Qed.

Lemma fold_count_into (l : list Job.t) c :
  let c' := fold_left (fun counts j => count_into counts j.(Job.state)) l c in
  (forall k, counts_get c' k
             = counts_get c k
               + Z.of_nat (length (List.filter (fun j => String.eqb j.(Job.state) k) l)))
  /\ counts_total c' = counts_total c + Z.of_nat (length l).
Proof.
  revert c. induction l as [|j l IH]; intros c; cbn [fold_left List.filter length].
  - split; [intros k; cbn; lia | cbn; lia].
  - destruct (IH (count_into c j.(Job.state))) as [H1 H2]. split.
    + intros k. rewrite H1, counts_get_count_into.
      destruct (String.eqb j.(Job.state) k); cbn [length]; lia.
    + rewrite H2, counts_total_count_into. lia.
Qed.

(** X16: [status] shows, for each of the five states, the number of
    records in that state (with a filled icon exactly when it is
    positive), and a total equal to the number of records in the store. *)
Theorem status_counts s :
  status_rows s
  = (fun st => let c := Z.of_nat (size (filter (fun kv => kv.2.(Store.job).(Job.state) = st)
                                          s.(Store.jobs))) in
               (0 <? c, ascii_upper st, c)) <$> valid_states
  /\ status_total s = Z.of_nat (size s.(Store.jobs)).
Proof.
  destruct (fold_count_into (get_all_jobs s) []) as [H1 H2]. split.
  - unfold status_rows, get_job_counts. apply list_fmap_ext. intros _ st _.
    rewrite H1. cbn [counts_get]. rewrite length_filter_get_all_jobs.
    destruct (filter_state_eqb s st) as [_ ->]. done.
  - change (status_total s) with (counts_total (get_job_counts s)).
    unfold get_job_counts. rewrite H2.
    unfold get_all_jobs. rewrite length_fmap, length_map_to_list. cbn. lia.
Qed.

Lemma get_jobs_by_state_elem s st j :
  In j (get_jobs_by_state s st)
  <-> exists k r, s.(Store.jobs) !! k = Some r /\ r.(Store.job) = j /\ j.(Job.state) = st.
Proof.
  unfold get_jobs_by_state, get_all_jobs. rewrite filter_In, <- list_elem_of_In.
  rewrite list_elem_of_fmap. split.
  - intros ([[k r] [-> Hin]] & Hst). apply elem_of_map_to_list in Hin.
    apply String.eqb_eq in Hst. by exists k, r.
  - intros (k & r & Hk & <- & Hst). split; [|by apply String.eqb_eq].
    exists (k, r). split; [done|]. by apply elem_of_map_to_list.
Qed.

(** X17: [dlq list] prints "No jobs in DLQ" exactly when no record is
    [dead]. Otherwise, when every [dead] record has an [attempts] of at
    most 4300 decimal digits (below [10^4300] in absolute value), it
    prints one row per [dead] record and a total equal to their number;
    when some [dead] record has a longer [attempts], formatting the table
    raises. *)
Theorem dlq_list_dead s :
  let n := size (filter (fun kv => kv.2.(Store.job).(Job.state) = JobState.DEAD) s.(Store.jobs)) in
  match dlq_list s with
  | Ret None => n = 0%nat
  | Ret (Some (rows, total)) =>
      total = n /\ length rows = n /\ (0 < n)%nat
      /\ (forall k r, s.(Store.jobs) !! k = Some r -> r.(Store.job).(Job.state) = JobState.DEAD ->
          Z.abs r.(Store.job).(Job.attempts) < 10 ^ 4300)
  | Raise _ =>
      exists k r, s.(Store.jobs) !! k = Some r /\ r.(Store.job).(Job.state) = JobState.DEAD
      /\ ~ Z.abs r.(Store.job).(Job.attempts) < 10 ^ 4300
  end.
Proof.
  intros n. pose proof (length_filter_get_all_jobs s (fun j => String.eqb j.(Job.state) JobState.DEAD)) as Hl.
  cbv beta in Hl. destruct (filter_state_eqb s JobState.DEAD) as [_ Hf]. rewrite Hf in Hl.
  fold n in Hl.
  pose proof (get_jobs_by_state_elem s JobState.DEAD) as Hel.
  unfold dlq_list. fold (get_jobs_by_state s JobState.DEAD) in Hl.
  destruct (get_jobs_by_state s JobState.DEAD) as [|j js] eqn:Hd; cbn in Hl |- *.
  - lia.
  - destruct (int_str_ok (Job.attempts j) && forallb _ js) eqn:Hb.
    + cbn [length]. rewrite length_fmap. split; [lia|]. split; [lia|]. split; [lia|].
      intros k r Hk Hst. apply int_str_ok_iff.
      assert (Hin : In r.(Store.job) (j :: js)) by (apply Hel; by exists k, r).
      change (forallb (fun j => int_str_ok j.(Job.attempts)) (j :: js) = true) in Hb.
      rewrite forallb_forall in Hb. by apply Hb.
    + change (forallb (fun j => int_str_ok j.(Job.attempts)) (j :: js) = false) in Hb.
      destruct (forallb_false_exists _ _ Hb) as (x & Hx & Hxf).
      destruct (proj1 (Hel x) Hx) as (k & r & Hk & <- & Hst).
      exists k, r. split; [done|]. split; [done|]. by apply int_str_ok_false.
Qed.

Lemma dlq_list_dead_witness :
  let s := two_job_store in
  let n := size (filter (fun kv => kv.2.(Store.job).(Job.state) = JobState.DEAD) s.(Store.jobs)) in
  match dlq_list s with
  | Ret None => n = 0%nat
  | Ret (Some (rows, total)) =>
      total = n /\ length rows = n /\ (0 < n)%nat
      /\ (forall k r, s.(Store.jobs) !! k = Some r -> r.(Store.job).(Job.state) = JobState.DEAD ->
          Z.abs r.(Store.job).(Job.attempts) < 10 ^ 4300)
  | Raise _ =>
      exists k r, s.(Store.jobs) !! k = Some r /\ r.(Store.job).(Job.state) = JobState.DEAD
      /\ ~ Z.abs r.(Store.job).(Job.attempts) < 10 ^ 4300
  end.
Proof. exact (dlq_list_dead two_job_store). Defined.
